(** * asetk: STS cube assembly (scripts/sts.py) and STM plotting (scripts/stm-plot.py)

    A shallow embedding of the two driver scripts and the properties their
    specification states about them.

    Numbers.  Command-line floats (energies, sigma, cell vectors) are exact
    rationals [Q]; the values stored in planes and volumes are reals [R], so
    that the Gaussian kernel can be written as in the source.  Rounding of
    IEEE doubles is not part of the model.

    Errors.  A Python exception is a value of [exn]; a computation that may
    raise returns [res A]. *)

From Stdlib Require Import String Bool.
From Stdlib Require Import List Arith ZArith QArith Qabs Qround Reals Lra Lia.
From Stdlib Require Import Qreals Permutation.
From Stdlib Require Lqa.
Import ListNotations.

Set Implicit Arguments.

(** ** Exceptions *)

Inductive exn : Type :=
| NameError (name : string)
| IndexError
| ValueError
| TypeError
| ZeroDivisionError
| OverflowError
| AttributeError (attr : string)
| IOError (file : string).

Inductive res (A : Type) : Type :=
| Ok (a : A)
| Raise (e : exn).

Arguments Ok {A} a.
Arguments Raise {A} e.

Definition bind {A B} (m : res A) (k : A -> res B) : res B :=
  match m with
  | Ok a => k a
  | Raise e => Raise e
  end.

Notation "x <- m ;; k" := (bind m (fun x => k))
  (at level 61, m at next level, right associativity).

(** ** Lists used as arrays *)

(** [l[i] = x] for an index in range; out of range the list is unchanged
    (the callers test the index first and raise [IndexError]). *)
Fixpoint list_update {A} (i : nat) (x : A) (l : list A) : list A :=
  match l, i with
  | [], _ => []
  | _ :: r, O => x :: r
  | a :: r, S j => a :: list_update j x r
  end.

(** Element-wise combination of two arrays of the same length; [None] when
    the lengths differ or one element fails. *)
Fixpoint zip_exact {A B} (f : A -> B -> option A) (la : list A) (lb : list B)
  : option (list A) :=
  match la, lb with
  | [], [] => Some []
  | a :: ra, b :: rb =>
      match f a b, zip_exact f ra rb with
      | Some c, Some rc => Some (c :: rc)
      | _, _ => None
      end
  | _, _ => None
  end.

(** [numpy.ndarray.argmin] on a 1-d array: index of the first minimum;
    [ValueError] on an empty array. *)
Fixpoint argmin_from (best : Q) (ibest i : nat) (l : list Q) : nat :=
  match l with
  | [] => ibest
  | x :: r =>
      if Qlt_le_dec x best then argmin_from x i (S i) r
      else argmin_from best ibest (S i) r
  end.

Definition argmin (l : list Q) : res nat :=
  match l with
  | [] => Raise ValueError
  | x :: r => Ok (argmin_from x 0%nat 1%nat r)
  end.

(** Python's [int(x)] on a float: truncation toward zero. *)
Definition py_int (x : Q) : Z := Z.quot (Qnum x) (Zpos (Qden x)).

(** ** Doubles

    A Python float is an IEEE binary64 number: a rational of the form
    m * 2^e with |m| < 2^53 and -1074 <= e, an infinity, or a NaN (the two
    zeros are not told apart).  Its operations return the exact result
    rounded to the nearest such number, ties to the even mantissa. *)
Inductive double : Type :=
| Fin (q : Q)
| PInf
| NInf
| NaN.

Open Scope Q_scope.

Definition pow2 (e : Z) : Q :=
  if (0 <=? e)%Z then inject_Z (2 ^ e) else 1 / inject_Z (2 ^ (- e)).

(** floor(log2 q) for q > 0. *)
Definition ilog2 (q : Q) : Z :=
  let s := (Z.log2 (Qnum q) - Z.log2 (Zpos (Qden q)))%Z in
  if Qle_bool (pow2 s) q then s else (s - 1)%Z.

Definition round_half_even (q : Q) : Z :=
  let f := Qfloor q in
  match Qcompare (q - inject_Z f) (1 # 2) with
  | Lt => f
  | Gt => (f + 1)%Z
  | Eq => if Z.even f then f else (f + 1)%Z
  end.

(** The double nearest to q > 0; [None] when it is beyond the largest. *)
Definition round_pos (q : Q) : option Q :=
  let e := Z.max (ilog2 q - 52) (-1074) in
  let m := round_half_even (q / pow2 e) in
  let v := Qred (inject_Z m * pow2 e) in
  if Qle_bool (pow2 1024) v then None else Some v.

(** [float(s)] for a decimal s, and the rounding of an exact result. *)
Definition to_double (q : Q) : double :=
  match Qcompare q 0 with
  | Eq => Fin 0
  | Gt => match round_pos q with
          | Some v => Fin v
          | None => PInf
          end
  | Lt => match round_pos (- q) with
          | Some v => Fin (- v)
          | None => NInf
          end
  end.

(** [x - y] on floats. *)
Definition fsub (x y : double) : double :=
  match x, y with
  | NaN, _ | _, NaN => NaN
  | Fin a, Fin b => to_double (a - b)
  | PInf, PInf | NInf, NInf => NaN
  | PInf, _ | _, NInf => PInf
  | NInf, _ | _, PInf => NInf
  end.

(** [x / y] on floats, for a divisor that is not zero. *)
Definition fdiv (x y : double) : double :=
  match x, y with
  | NaN, _ | _, NaN => NaN
  | Fin a, Fin b => to_double (a / b)
  | Fin _, _ => Fin 0
  | PInf, Fin b => if Qle_bool 0 b then PInf else NInf
  | NInf, Fin b => if Qle_bool 0 b then NInf else PInf
  | _, _ => NaN
  end.

Definition is_zero (x : double) : bool :=
  match x with
  | Fin z => Qeq_bool z 0
  | _ => false
  end.

(** [int(x)] on a float. *)
Definition int_of_double (x : double) : res Z :=
  match x with
  | Fin q => Ok (py_int q)
  | PInf | NInf => Raise OverflowError
  | NaN => Raise ValueError
  end.

Close Scope Q_scope.

(** * scripts/sts.py *)
Module Sts.

Local Open Scope Q_scope.

(** ** Data *)

(** The command line (the options the modelled code reads); a float
    option holds the decimal that was typed. *)
Record Args : Type := {
  emin : Q;
  emax : Q;
  de : Q;
  sigma : Q;
  nsigmacut : Z;
  psisquared : bool;
  dz : string;         (* args.dz as formatted into the plane file name *)
  outfile : string
}.

(** One energy level of a spin channel. *)
Record Level : Type := {
  l_energy : Q;
  l_occupation : Q
}.

(** [zip(spectrum.spins, spectrum.energylevels)]: the spin identifier of a
    channel with its levels, in file order, after the reference shift. *)
Definition Spectrum : Type := list (Z * list Level).

(** A [WfnCube] object.  [energy] and [occupation] are attributes the
    matching loop attaches; before that they are absent. *)
Record WfnCube : Type := {
  filename : string;
  wfn : Z;
  spin : Z;
  energy : option Q;
  occupation : option Q
}.

Definition set_level (c : WfnCube) (e o : Q) : WfnCube :=
  {| filename := filename c; wfn := wfn c; spin := spin c;
     energy := Some e; occupation := Some o |}.

(** A 2-d array of values and a 3-d array stored as the list of its slices
    [data[:,:,i]] along the third axis. *)
Definition plane : Type := list (list R).
Definition volume : Type := list plane.

(** What the run prints and which files it touches. *)
Inductive event : Type :=
| FoundCube (spin : Z) (e o : Q)
| MissingCube (spin : Z) (e o : Q)
| ReadData (file : string)
| ReadPlane (file : string)
| WritePlane (file : string)
| PrintWriting (file : string)
| WriteCube (file : string).

(** ** The Gaussian kernel (line 90)

    The kernel over the reals.  (In doubles [exp] underflows: for the
    default sigma the code's value is exactly 0.0 from a distance of about
    2.9 on; statements about the kernel below are about the real one.) *)

Definition gaussian (a : Args) (x : Q) : R :=
  (1 / (Q2R (sigma a) * sqrt (2 * PI))
   * exp (- (Q2R x) ^ 2 / (2 * (Q2R (sigma a)) ^ 2)))%R.

(** ** Connecting energies with cube files (lines 115-138) *)

Definition cutoff (a : Args) : Q := sigma a * inject_Z (nsigmacut a).

Definition in_window (a : Args) (e : Q) : bool :=
  Qle_bool (emin a - cutoff a) e && Qle_bool e (emax a + cutoff a).

Definition cube_matches (index spin_id : Z) (c : WfnCube) : bool :=
  (wfn c =? index)%Z && (spin c =? spin_id + 1)%Z.

(** The inner [for cube in cubes: ... break]: position of the first cube
    that matches, counted from [k]. *)
Fixpoint find_cube (index spin_id : Z) (k : nat) (cubes : list WfnCube)
  : option nat :=
  match cubes with
  | [] => None
  | c :: r =>
      if cube_matches index spin_id c then Some k
      else find_cube index spin_id (S k) r
  end.

(** The cube picked for one level, if any (the body of the loop over the
    levels, without its side effects). *)
Definition select_cube (a : Args) (cubes : list WfnCube)
  (spin_id index : Z) (l : Level) : option nat :=
  if in_window a (l_energy l) then find_cube index spin_id 0%nat cubes
  else None.

(** State of the matching loop: the cube objects (mutated in place), the
    list [required_cubes] as references into them, and the output so far. *)
Record match_state : Type := {
  cubes : list WfnCube;
  required : list nat;
  printed : list event
}.

Definition match_level (a : Args) (spin_id index : Z) (l : Level)
  (st : match_state) : match_state :=
  let e := l_energy l in
  let o := l_occupation l in
  match select_cube a (cubes st) spin_id index l with
  | Some k =>
      {| cubes := match nth_error (cubes st) k with
                  | Some c => list_update k (set_level c e o) (cubes st)
                  | None => cubes st
                  end;
         required := required st ++ [k];
         printed := printed st ++ [FoundCube (spin_id + 1) e o] |}
  | None =>
      if in_window a e then
        {| cubes := cubes st;
           required := required st;
           printed := printed st ++ [MissingCube (spin_id + 1) e o] |}
      else st
  end.

(** [for index, l in enumerate(levels.levels)], from index [index]. *)
Fixpoint match_levels (a : Args) (spin_id : Z) (index : Z)
  (ls : list Level) (st : match_state) : match_state :=
  match ls with
  | [] => st
  | l :: r => match_levels a spin_id (index + 1)%Z r
                (match_level a spin_id index l st)
  end.

Fixpoint match_spectrum (a : Args) (sp : Spectrum) (st : match_state)
  : match_state :=
  match sp with
  | [] => st
  | (spin_id, ls) :: r =>
      match_spectrum a r (match_levels a spin_id 0%Z ls st)
  end.

Definition required_cubes (a : Args) (sp : Spectrum) (cs : list WfnCube)
  : match_state :=
  match_spectrum a sp {| cubes := cs; required := []; printed := [] |}.

(** ** Preparing the output cube (lines 142-153) *)

(** [int((args.emax - args.emin) / args.de) + 1]: the options are the
    doubles nearest to what was typed, the difference and the quotient are
    rounded, dividing by a zero raises, and [int] truncates. *)
Definition nbins (a : Args) : res Z :=
  let d := to_double (de a) in
  if is_zero d then Raise ZeroDivisionError
  else
    n <- int_of_double
           (fdiv (fsub (to_double (emax a)) (to_double (emin a))) d) ;;
    Ok (n + 1)%Z.

Definition zeros (nx ny nz : nat) : volume :=
  repeat (repeat (repeat 0%R ny) nx) nz.

(** The output cube: its data, [origin[2]], and the array [zrange]. *)
Record StsCube : Type := {
  data : volume;
  origin2 : Q;
  zrange : list Q
}.

(** [zrange = np.r_[stscube.origin[2], args.emax, shape[2]]]: the three
    scalars concatenated into one array. *)
Definition make_zrange (o2 emx : Q) (n : Z) : list Q := [o2; emx; inject_Z n].

(** Lines 148-153 for a first cube of lateral shape [nx] x [ny].  The bin
    count is stored in the integer array [shape], which holds 64-bit
    integers, and [np.zeros] rejects a negative dimension.  (That a volume
    of very many bins does not fit in memory is outside the model.) *)
Definition init_stscube (a : Args) (nx ny : nat) : res StsCube :=
  n <- nbins a ;;
  if ((n <? - 2 ^ 63) || (2 ^ 63 <=? n))%Z then Raise OverflowError
  else if (n <? 0)%Z then Raise ValueError
  else Ok {| data := zeros nx ny (Z.to_nat n);
             origin2 := emin a;
             zrange := make_zrange (emin a) (emax a) n |}.

(** ** The STS calculation (lines 159-188) *)

Definition plane_scale (w : R) (p : plane) : plane :=
  map (map (fun v => (v * w)%R)) p.

Definition row_add : list R -> list R -> option (list R) :=
  zip_exact (fun x y => Some (x + y)%R).

(** [s += q] on 2-d arrays of equal shape.  (numpy would also broadcast a
    [q] with a dimension of length one; planes of cube files have the
    lateral shape of their cube, and that case is left as an error.) *)
Definition plane_add : plane -> plane -> option plane := zip_exact row_add.

(** [data[:,:,i] += q]. *)
Definition add_to_slice (i : nat) (q : plane) (d : volume) : res volume :=
  match nth_error d i with
  | None => Raise IndexError
  | Some s =>
      match plane_add s q with
      | None => Raise ValueError
      | Some s' => Ok (list_update i s' d)
      end
  end.

(** Lines 180-183: [imin] and [imax] for a window centred at [e]. *)
Definition window (a : Args) (zr : list Q) (e : Q) : res (nat * nat) :=
  let wmin := e - sigma a * inject_Z (nsigmacut a) in
  let wmax := e + sigma a * inject_Z (nsigmacut a) in
  imin <- argmin (map (fun z => Qabs (z - wmin)) zr) ;;
  imax <- argmin (map (fun z => Qabs (z - wmax)) zr) ;;
  Ok (imin, imax).

(** [range(lo, hi)]. *)
Definition py_range (lo hi : nat) : list nat := seq lo (hi - lo).

(** Lines 185-186 over the indices [idx]. *)
Fixpoint accumulate_over (a : Args) (zr : list Q) (p : plane) (e : Q)
  (idx : list nat) (d : volume) : res volume :=
  match idx with
  | [] => Ok d
  | i :: r =>
      match nth_error zr i with
      | None => Raise IndexError
      | Some z =>
          d' <- add_to_slice i (plane_scale (gaussian a (e - z)) p) d ;;
          accumulate_over a zr p e r d'
      end
  end.

(** Lines 180-186 for a plane [p] and a window centred at [e]. *)
Definition accumulate (a : Args) (zr : list Q) (d : volume)
  (p : plane) (e : Q) : res volume :=
  w <- window a zr e ;;
  accumulate_over a zr p e (py_range (fst w) (snd w + 1)) d.

(** Accumulating a list of (plane, energy) contributions in order. *)
Fixpoint accumulate_all (a : Args) (zr : list Q) (cs : list (plane * Q))
  (d : volume) : res volume :=
  match cs with
  | [] => Ok d
  | (p, e) :: r => d' <- accumulate a zr d p e ;; accumulate_all a zr r d'
  end.

(** What the run finds on disk: the lateral shape of a cube file's data,
    the plane that reading the cube (squared unless [psisquared]) and
    [get_plane_above_atoms(args.dz)] give, and the plane files present. *)
Record Disk : Type := {
  cube_shape : string -> res (nat * nat);
  cube_plane : string -> bool -> res plane;
  plane_files : list (string * plane)
}.

Fixpoint assoc (k : string) (l : list (string * plane)) : option plane :=
  match l with
  | [] => None
  | (k', v) :: r => if String.eqb k k' then Some v else assoc k r
  end.

(** Modelled from the spec: [WfnCube.from_cube] (atk.format.cp2k, not among
    the sources) builds a new cube object from the header of its argument;
    the plane keeps the energy and spin tag of its source level, so the copy
    carries the attributes the matching loop attached. *)
Definition from_cube (c : WfnCube) : WfnCube := c.

(** The variables the loop reads and writes: the global [tmp] (unbound
    until first assigned), the output data, the plane files, the trace. *)
Record run_state : Type := {
  tmp : option WfnCube;
  out : volume;
  files : list (string * plane);
  trace : list event
}.

Definition planefile (a : Args) (c : WfnCube) : string :=
  (filename c ++ ".dz" ++ dz a)%string.

(** Lines 164-178: the plane of [cube], from the plane file when it exists. *)
Definition get_plane (a : Args) (dk : Disk) (cube : WfnCube)
  (st : run_state) : run_state * res plane :=
  match assoc (planefile a cube) (files st) with
  | Some p =>
      ({| tmp := tmp st; out := out st; files := files st;
          trace := trace st ++ [ReadPlane (planefile a cube)] |}, Ok p)
  | None =>
      let t := from_cube cube in
      match cube_plane dk (filename t) (psisquared a) with
      | Raise e =>
          ({| tmp := Some t; out := out st; files := files st;
              trace := trace st ++ [ReadData (filename t)] |}, Raise e)
      | Ok p =>
          ({| tmp := Some t; out := out st;
              files := (planefile a cube, p) :: files st;
              trace := trace st ++ [ReadData (filename t);
                                    WritePlane (planefile a cube)] |}, Ok p)
      end
  end.

(** Lines 180-186 as the loop has them: the window is taken from [tmp]. *)
Definition fold_plane (a : Args) (zr : list Q) (p : plane)
  (st : run_state) : res volume :=
  match tmp st with
  | None => Raise (NameError "tmp")
  | Some t =>
      match energy t with
      | None => Raise (AttributeError "energy")
      | Some e => accumulate a zr (out st) p e
      end
  end.

(** One iteration of [for cube in required_cubes]. *)
Definition process_cube (a : Args) (dk : Disk) (zr : list Q)
  (cube : WfnCube) (st : run_state) : run_state * option exn :=
  match get_plane a dk cube st with
  | (st1, Raise e) => (st1, Some e)
  | (st1, Ok p) =>
      match fold_plane a zr p st1 with
      | Raise e => (st1, Some e)
      | Ok d =>
          ({| tmp := tmp st1; out := d; files := files st1;
              trace := trace st1 |}, None)
      end
  end.

Fixpoint run_cubes (a : Args) (dk : Disk) (zr : list Q)
  (cs : list WfnCube) (st : run_state) : run_state * option exn :=
  match cs with
  | [] => (st, None)
  | c :: r =>
      match process_cube a dk zr c st with
      | (st1, None) => run_cubes a dk zr r st1
      | (st1, Some e) => (st1, Some e)
      end
  end.

(** ** Writing the result (lines 195-196) *)

(** The names bound at module level when line 196 runs: the imports and
    every assignment target of the script. *)
Definition module_globals : list string :=
  ["np"; "argparse"; "cp2k"; "progressbar"; "os"; "parser"; "args";
   "gaussian"; "spectrum"; "spin"; "levels"; "cubes"; "bar"; "fname";
   "required_cubes"; "index"; "l"; "e"; "o"; "found"; "cube"; "stscube";
   "shape"; "zrange"; "planefile"; "plane"; "tmp"; "emin"; "emax"; "imin";
   "imax"; "i"]%string.

Definition bound (name : string) : bool :=
  existsb (String.eqb name) module_globals.

(** [print("Writing ...")] and then [sts.cube.write_cube_file(args.outfile)]:
    the name [sts] is looked up first. *)
Definition write_output (a : Args) (tr : list event)
  : list event * option exn :=
  let tr1 := tr ++ [PrintWriting (outfile a)] in
  if bound "sts" then (tr1 ++ [WriteCube (outfile a)], None)
  else (tr1, Some (NameError "sts")).

(** ** The whole script, from the matching loop on *)

(** The cube objects [required_cubes] refers to. *)
Fixpoint deref (store : list WfnCube) (refs : list nat) : list WfnCube :=
  match refs with
  | [] => []
  | k :: r =>
      match nth_error store k with
      | Some c => c :: deref store r
      | None => deref store r
      end
  end.

Definition sts_main (a : Args) (sp : Spectrum) (cs : list WfnCube)
  (dk : Disk) : list event * option exn :=
  let m := required_cubes a sp cs in
  match deref (cubes m) (required m) with
  | [] => (printed m, Some IndexError)          (* required_cubes[0] *)
  | (c0 :: _) as req =>
      let tr := printed m ++ [ReadData (filename c0)] in
      match cube_shape dk (filename c0) with
      | Raise e => (tr, Some e)
      | Ok (nx, ny) =>
          match init_stscube a nx ny with
          | Raise e => (tr, Some e)
          | Ok sc =>
              match run_cubes a dk (zrange sc) req
                      {| tmp := None; out := data sc;
                         files := plane_files dk; trace := tr |} with
              | (st, Some e) => (trace st, Some e)
              | (st, None) => write_output a (trace st)
              end
          end
      end
  end.

(** ** What the specification says, and the inputs used below *)

(** Spec: bin [i] of the energy axis corresponds to [emin + i * de]. *)
Definition bin_energy (a : Args) (i : nat) : Q :=
  emin a + inject_Z (Z.of_nat i) * de a.

(** Spec: after initialisation the third axis has floor((emax-emin)/de)+1
    bins, [origin[2]] is [emin], and entry [i] of the discretized axis is
    the energy of bin [i]. *)
Definition axis_as_specified (a : Args) (sc : StsCube) : Prop :=
  Z.of_nat (length (data sc)) = (Qfloor ((emax a - emin a) / de a) + 1)%Z /\
  origin2 sc = emin a /\
  forall i, (i < length (data sc))%nat ->
    exists z, nth_error (zrange sc) i = Some z /\ z == bin_energy a i.

(** Spec: a pair of a level and a volume header is selected iff the energy
    is in the window and the header carries the level's band index and its
    spin plus one. *)
Definition selected_as_specified (a : Args) (cs : list WfnCube)
  (spin_id index : Z) (l : Level) (k : nat) : Prop :=
  select_cube a cs spin_id index l = Some k <->
  (in_window a (l_energy l) = true /\
   exists c, nth_error cs k = Some c /\ wfn c = index /\
             spin c = (spin_id + 1)%Z).

(** Two cube objects that differ at most in the attributes the matching
    loop attaches. *)
Definition same_header (c c' : WfnCube) : Prop :=
  filename c = filename c' /\ wfn c = wfn c' /\ spin c = spin c'.

(** Two cube files for band 3 of the first spin channel, and that level. *)
Definition twin_cubes : list WfnCube :=
  [ {| filename := "a.cube"; wfn := 3; spin := 1;
       energy := None; occupation := None |};
    {| filename := "b.cube"; wfn := 3; spin := 1;
       energy := None; occupation := None |} ].

Definition level_3 : Level := {| l_energy := 1 # 2; l_occupation := 2 |}.

(** A three-bin axis and two one-point planes at its ends. *)
Definition axis3 : list Q := [0; 1; 2].


(** A cube whose plane file is already on disk, and the state in which the
    loop starts. *)
Definition cached_cube : WfnCube :=
  {| filename := "a.cube"; wfn := 3; spin := 1;
     energy := Some (1 # 2); occupation := Some 2 |}.

Definition fresh_state : run_state :=
  {| tmp := None; out := zeros 1 1 3;
     files := [("a.cube.dz2.5"%string, [[1%R]])]; trace := [] |}.

Definition no_cubes_on_disk : Disk :=
  {| cube_shape := fun f => Raise (IOError f);
     cube_plane := fun f _ => Raise (IOError f);
     plane_files := [("a.cube.dz2.5"%string, [[1%R]])] |}.

(** The defaults of the command line. *)
Definition default_args : Args :=
  {| emin := -3; emax := 3; de := 1 # 100; sigma := 75 # 1000;
     nsigmacut := 5; psisquared := false; dz := "2.5";
     outfile := "sts.cube" |}.

(** A disk with cube files of one grid point and no plane file, and the
    state in which the loop starts on it. *)
Definition one_point_disk : Disk :=
  {| cube_shape := fun _ => Ok (1, 1)%nat;
     cube_plane := fun _ _ => Ok [[1%R]];
     plane_files := [] |}.

Definition cold_state : run_state :=
  {| tmp := None; out := zeros 1 1 3; files := []; trace := [] |}.

(** The state in which the loop starts after the default initialisation
    for cubes of one grid point, with no plane file on disk. *)
Definition default_start : run_state :=
  {| tmp := None; out := zeros 1 1 601; files := []; trace := [] |}.

(** A spectrum of one spin channel whose level of index 3 is [level_3]. *)
Definition spectrum_3 : Spectrum := [(0%Z, [level_3; level_3; level_3; level_3])].

(** A spectrum with the single level [level_3], of index 0, and a cube
    file of another band. *)
Definition one_level : Spectrum := [(0%Z, [level_3])].

Definition stray_cube : WfnCube :=
  {| filename := "c.cube"; wfn := 5; spin := 1;
     energy := None; occupation := None |}.

(** A 2-d array of [nx] rows of [ny] entries. *)
Definition has_shape (nx ny : nat) (p : plane) : Prop :=
  length p = nx /\ Forall (fun row => length row = ny) p.


(** The levels of a spectrum whose energy passes the window test. *)
Definition levels_in_window (a : Args) (sp : Spectrum) : list Level :=
  filter (fun l => in_window a (l_energy l)) (flat_map snd sp).

End Sts.

(** * scripts/stm-plot.py *)
Module StmPlot.

Local Open Scope Q_scope.

(** ** Data *)

Definition vec3 : Type := (Q * Q * Q)%type.

Definition vadd (u v : vec3) : vec3 :=
  let '(u0, u1, u2) := u in
  let '(v0, v1, v2) := v in
  (u0 + v0, u1 + v1, u2 + v2).

Definition vscale (k : nat) (v : vec3) : vec3 :=
  let '(v0, v1, v2) := v in
  let q := inject_Z (Z.of_nat k) in
  (q * v0, q * v1, q * v2).

(** A row of [cell / data.shape]: numpy divides component [c] of every row
    by entry [c] of the shape. *)
Definition vdiv (v : vec3) (sh : nat * nat * nat) : vec3 :=
  let '(v0, v1, v2) := v in
  let '(nx, ny, nz) := sh in
  (v0 / inject_Z (Z.of_nat nx), v1 / inject_Z (Z.of_nat ny),
   v2 / inject_Z (Z.of_nat nz)).

(** A 2-d array, as the list of its rows. *)
Definition plane : Type := list (list Q).

(** A cube object: [data.shape], the entries of [data], the rows of
    [atoms.cell], and the layer a tip height above the atoms resolves to. *)
Record Cube : Type := {
  shape : nat * nat * nat;
  value : nat -> nat -> nat -> Q;
  cell : vec3 * vec3 * vec3;
  layer_above_atoms : Q -> Z
}.

(** A replication factor (nx, ny).  The factors are naturals: [np.tile]
    raises on a negative one before anything else is computed. *)
Definition replica : Type := (nat * nat)%type.

(** [np.tile(p, rep)] on a 2-d array. *)
Definition tile (p : plane) (rep : replica) : plane :=
  concat (repeat (map (fun row => concat (repeat row (snd rep))) p) (fst rep)).

(** [p.flatten()]. *)
Definition flatten (p : plane) : list Q := concat p.

(** ** Plane extraction *)

(** [data[:,:,k]]. *)
Definition layer (c : Cube) (k : nat) : plane :=
  let '(nx, ny, _) := shape c in
  map (fun i => map (fun j => value c i j k) (seq 0 ny)) (seq 0 nx).

(** Modelled from the spec: [Cube.get_plane_above_atoms] (asetk.format.cube,
    not among the sources).  It returns the values of [data] at the layer
    the height resolves to, fails with [IndexError] when that layer is
    outside [0, nz), and with a replication factor tiles the plane that many
    times along each lateral axis (the plane equals [np.tile] of the plane
    without replication). *)
Definition get_plane_above_atoms (c : Cube) (v : Q) (rep : option replica)
  : res plane :=
  let '(_, _, nz) := shape c in
  let k := layer_above_atoms c v in
  if ((k <? 0) || (Z.of_nat nz <=? k))%Z then Raise IndexError
  else
    let p := layer c (Z.to_nat k) in
    Ok (match rep with
        | Some r => tile p r
        | None => p
        end).

(** ** Resampling (lines 13-42) *)

(** [np.min] and [np.max] of a non-empty sequence. *)
Fixpoint list_min (x : Q) (l : list Q) : Q :=
  match l with
  | [] => x
  | y :: r => if Qlt_le_dec y x then list_min y r else list_min x r
  end.

Fixpoint list_max (x : Q) (l : list Q) : Q :=
  match l with
  | [] => x
  | y :: r => if Qlt_le_dec x y then list_max y r else list_max x r
  end.

(** [np.linspace(a, b, n)]: [n] evenly spaced samples, the last one set to
    [b] when [n > 1]. *)
Definition linspace (a b : Q) (n : nat) : list Q :=
  match n with
  | O => []
  | S O => [a]
  | S (S m as n1) =>
      map (fun k => a + inject_Z (Z.of_nat k) * ((b - a) / inject_Z (Z.of_nat n1)))
          (seq 0 n1) ++ [b]
  end.

Section Resample.

(** The linear scattered-data interpolant of matplotlib: from the sample
    points (x, y, value) to a value at a query point (the fill value
    outside the convex hull of the samples). *)
Variable interp : list (Q * Q * Q) -> Q -> Q -> Q.

(** What else the library refuses, and with which exception: sample
    points it cannot triangulate (too few, or on one line), an output grid
    it cannot use; [None] when it goes on to interpolate.  This depends on
    the release of the library. *)
Variable rejects :
  list Q -> list Q -> list Q -> list Q -> list Q -> option exn.

(** The exception of the library's first test, that x, y and z have the
    same length: [TypeError] in the release of the script's date (1.3),
    [ValueError] from release 1.4 on. *)
Variable length_error : exn.

(** [mlab.griddata(x, y, z, xi, yi, interp='linear')] for 1-d [xi], [yi]:
    [length_error] unless x, y and z have the same length; otherwise,
    unless the library refuses the arguments, a [len(yi)] x [len(xi)]
    array, entry [j][k] at the point (xi[k], yi[j]). *)
Definition griddata (x y z xi yi : list Q) : res plane :=
  if (length x =? length y)%nat && (length y =? length z)%nat then
    match rejects x y z xi yi with
    | Some e => Raise e
    | None =>
        Ok (map (fun yq => map (fun xq => interp (combine (combine x y) z) xq yq) xi) yi)
    end
  else Raise length_error.

(** Lines 19-28: the grid after replication, the value array and the
    position list handed on. *)
Definition grid_shape (c : Cube) (rep : option replica) : nat * nat :=
  let '(nx, ny, _) := shape c in
  match rep with
  | Some (r0, r1) => (nx * r0, ny * r1)%nat
  | None => (nx, ny)
  end.

Definition sample_values (p : plane) (rep : option replica) : list Q :=
  flatten (match rep with
           | Some r => tile p r
           | None => p
           end).

Definition sample_positions (c : Cube) (rep : option replica) : list vec3 :=
  let '(a0, a1, _) := cell c in
  let dx := vdiv a0 (shape c) in
  let dy := vdiv a1 (shape c) in
  let '(nx, ny) := grid_shape c rep in
  flat_map (fun i => map (fun j => vadd (vscale i dx) (vscale j dy)) (seq 0 ny))
           (seq 0 nx).

Definition xs (pos : list vec3) : list Q := map (fun v => fst (fst v)) pos.
Definition ys (pos : list vec3) : list Q := map (fun v => snd (fst v)) pos.

(** Line 31; [x, y, z = zip( *pos)] fails on an empty position list. *)
Definition extent_of (pos : list vec3) : res (Q * Q * Q * Q) :=
  match xs pos, ys pos with
  | x0 :: xr, y0 :: yr =>
      Ok (list_min x0 xr, list_max x0 xr, list_min y0 yr, list_max y0 yr)
  | _, _ => Raise ValueError
  end.

Definition resample (p : plane) (c : Cube) (rep : option replica)
  (nsamples : nat) : res (plane * (Q * Q * Q * Q)) :=
  let vals := sample_values p rep in
  let pos := sample_positions c rep in
  ext <- extent_of pos ;;
  let '(x0, x1, y0, y1) := ext in
  let xnew := linspace x0 x1 nsamples in
  let ynew := linspace y0 y1 nsamples in
  resampled <- griddata (xs pos) (ys pos) vals xnew ynew ;;
  Ok (rev resampled, ext).

(** The plotting path for a height job (lines 140-141 and 183): the plane
    comes from the extraction call and goes to [resample], both with
    [args.replicate]. *)
Definition plot_height (c : Cube) (v : Q) (rep : option replica)
  (nsamples : nat) : res (plane * (Q * Q * Q * Q)) :=
  p <- get_plane_above_atoms c v rep ;;
  resample p c rep nsamples.

End Resample.

(** ** The driver up to the first cube file (lines 104-126) *)

Record Args : Type := {
  stmcubes : option (list string);
  heights : option (list Q);
  isovalues : option (list Q);
  replicate : option (list Z)
}.

Inductive kind : Type := KHeight | KIso.

(** [args.replicate] after lines 116-121: still the parsed list, or the
    list of two lists the one-value case builds. *)
Inductive rep_value : Type :=
| RepList (l : list Z)
| RepNested (l : list (list Z)).

Inductive event : Type :=
| PrintNoJobs
| Exit
| PrintInvalidReplicas
| PrintReading (file : string)
| OpenCube (file : string).

Definition opt_list {A} (o : option (list A)) : list A :=
  match o with
  | Some l => l
  | None => []
  end.

(** Lines 107-111. *)
Definition jobs (a : Args) : list (Q * kind) :=
  map (fun h => (h, KHeight)) (opt_list (heights a))
  ++ map (fun v => (v, KIso)) (opt_list (isovalues a)).

(** Lines 116-121. *)
Definition check_replicate (r : option (list Z))
  : option rep_value * list event :=
  match r with
  | None => (None, [])
  | Some l =>
      if (length l =? 1)%nat then (Some (RepNested [l; l]), [])
      else if negb (length l =? 2)%nat then (Some (RepList l), [PrintInvalidReplicas])
      else (Some (RepList l), [])
  end.

(** What the script has printed and opened when the first
    [cube.Cube.from_file] call is made (or when it stops before that). *)
Definition startup (a : Args) : list event * option exn :=
  match jobs a with
  | [] => ([PrintNoJobs; Exit], None)
  | _ :: _ =>
      let ev := snd (check_replicate (replicate a)) in
      match stmcubes a with
      | None => (ev, Some TypeError)         (* for fname in None *)
      | Some [] => (ev, None)
      | Some (f :: _) => (ev ++ [PrintReading f; OpenCube f], None)
      end
  end.

(** ** What the specification says, and the inputs used below *)

(** The (x, y, value) triples the interpolation call receives. *)
Definition samples (p : plane) (c : Cube) (rep : option replica)
  : list (Q * Q * Q) :=
  combine (combine (xs (sample_positions c rep)) (ys (sample_positions c rep)))
          (sample_values p rep).


(** Claim: with a replication factor the value array has rep[0]*rep[1]
    times the entries of the coordinate list, and the two lengths differ. *)
Definition double_tiling_as_specified (c : Cube) (v : Q) (rep : replica)
  : Prop :=
  forall p, get_plane_above_atoms c v (Some rep) = Ok p ->
    length (sample_values p (Some rep))
    = (fst rep * snd rep * length (sample_positions c (Some rep)))%nat /\
    length (sample_values p (Some rep))
    <> length (sample_positions c (Some rep)).

(** A 2 x 2 x 1 cube over the cell diag(2, 2, 1) whose value at a grid
    point is its y coordinate, and the interpolant of that field. *)
Definition unit_cube : Cube :=
  {| shape := (2, 2, 1)%nat;
     value := fun _ j _ => inject_Z (Z.of_nat j);
     cell := ((2, 0, 0), (0, 2, 0), (0, 0, 1));
     layer_above_atoms := fun _ => 0%Z |}.

Definition unit_plane : plane := [[0; 1]; [0; 1]].

Definition interp_y (pts : list (Q * Q * Q)) (x y : Q) : Q := y.

(** A library that refuses nothing beyond the length test. *)
Definition accepts_all (x y z xi yi : list Q) : option exn := None.

(** A command line with three replication values. *)
Definition three_replicas : Args :=
  {| stmcubes := Some ["a.cube"%string]; heights := Some [3];
     isovalues := None; replicate := Some [1; 2; 3]%Z |}.

(** The plane after lines 22-23 of [resample]. *)
Definition replicated (p : plane) (rep : option replica) : plane :=
  match rep with
  | Some r => tile p r
  | None => p
  end.

(** The position [resample] computes for the grid point (i, j). *)
Definition grid_point (c : Cube) (i j : nat) : vec3 :=
  vadd (vscale i (vdiv (fst (fst (cell c))) (shape c)))
       (vscale j (vdiv (snd (fst (cell c))) (shape c))).

End StmPlot.

(** * Properties of scripts/sts.py *)
Module StsFacts.

Import Sts.
Local Open Scope Q_scope.

(** ** The output cube *)

Lemma length_zeros (nx ny nz : nat) : length (zeros nx ny nz) = nz.
Proof. unfold zeros. apply repeat_length. Qed.

Lemma nbins_default : nbins default_args = Ok 601%Z.
Proof. vm_compute. reflexivity. Qed.

Lemma init_stscube_default (nx ny : nat) :
  init_stscube default_args nx ny
  = Ok {| data := zeros nx ny 601; origin2 := -3;
          zrange := make_zrange (-3) 3 601 |}.
Proof. unfold init_stscube. rewrite nbins_default. reflexivity. Qed.

(** C2 at the default command line: the cube is initialised with
    floor((emax-emin)/de) + 1 = 601 bins and [origin[2]] is [emin] = -3, as
    the claim says; but the discretized axis that the code builds is the
    three-entry array [-3, 3, 601].  Entry 1 is [emax] = 3 where bin 1 has
    the energy -2.99, entry 2 is the bin count where bin 2 has the energy
    -2.98, and the bins from 3 on have no entry at all. *)
Theorem default_axis_has_three_entries (nx ny : nat) :
  exists sc, init_stscube default_args nx ny = Ok sc /\
    Z.of_nat (length (data sc))
    = (Qfloor ((emax default_args - emin default_args) / de default_args) + 1)%Z /\
    length (data sc) = 601%nat /\
    origin2 sc = emin default_args /\
    nth_error (zrange sc) 0 = Some (- (3)) /\
    nth_error (zrange sc) 1 = Some 3 /\
    nth_error (zrange sc) 2 = Some (inject_Z 601) /\
    ~ 3 == bin_energy default_args 1 /\
    ~ inject_Z 601 == bin_energy default_args 2 /\
    (forall i, (3 <= i)%nat -> nth_error (zrange sc) i = None) /\
    ~ axis_as_specified default_args sc.
Proof.
  exists {| data := zeros nx ny 601; origin2 := -3;
            zrange := make_zrange (-3) 3 601 |}.
  split; [apply init_stscube_default|].
  cbn [data origin2 zrange]. rewrite length_zeros.
  split; [reflexivity|]. split; [reflexivity|]. split; [reflexivity|].
  split; [reflexivity|]. split; [reflexivity|]. split; [reflexivity|].
  split; [intros H; vm_compute in H; discriminate|].
  split; [intros H; vm_compute in H; discriminate|].
  split.
  - intros i Hi. apply nth_error_None. simpl. lia.
  - intros (_ & _ & H). destruct (H 1%nat) as (z & Hz & Hq).
    + cbn [data]. rewrite length_zeros. lia.
    + cbn [zrange make_zrange nth_error] in Hz. injection Hz as <-.
      vm_compute in Hq. discriminate.
Qed.

(** ** The kernel *)


Lemma gaussian_pos (a : Args) (x : Q) :
  0 < sigma a -> (0 < gaussian a x)%R.
Proof.
  intros H. unfold gaussian.
  assert (Hs : (0 < Q2R (sigma a))%R).
  { replace 0%R with (Q2R 0) by (unfold Q2R; simpl; lra). now apply Qlt_Rlt. }
  assert (Hp : (0 < sqrt (2 * PI))%R).
  { apply sqrt_lt_R0. generalize PI_RGT_0. lra. }
  apply Rmult_lt_0_compat; [|apply exp_pos].
  apply Rdiv_lt_0_compat; [lra|]. now apply Rmult_lt_0_compat.
Qed.

(** ** The window of a level *)

(** C1 at the default command line, for a level at energy 1.0: the axis
    array is [emin, emax, nbins] = [-3, 3, 601], the nearest-index lookup
    gives imin = imax = 1, and the plane is added, with a weight that is not
    zero, to slice 1 only.  The energy of bin 1 is -2.99, outside
    [0.625, 1.375]; the bins 363..437, whose energies are inside, get
    nothing. *)
Theorem default_window_of_level_1 (nx ny : nat) :
  exists sc, init_stscube default_args nx ny = Ok sc /\
    zrange sc = [-3; 3; inject_Z 601] /\
    window default_args (zrange sc) 1 = Ok (1%nat, 1%nat) /\
    (forall d p, accumulate default_args (zrange sc) d p 1 =
       add_to_slice 1 (plane_scale (gaussian default_args (1 - 3)) p) d) /\
    (0 < gaussian default_args (1 - 3))%R /\
    ~ (1 - cutoff default_args <= bin_energy default_args 1
       /\ bin_energy default_args 1 <= 1 + cutoff default_args) /\
    (forall i, (363 <= i <= 437)%nat ->
       1 - cutoff default_args <= bin_energy default_args i
       /\ bin_energy default_args i <= 1 + cutoff default_args
       /\ ~ In i (py_range 1 (1 + 1))).
Proof.
  eexists. split; [apply init_stscube_default|]. split; [reflexivity|].
  split; [reflexivity|]. split; [|split; [|split]].
  - intros d p. unfold accumulate.
    change (window default_args (zrange _) 1) with (Ok (A := nat * nat) (1%nat, 1%nat)).
    cbn [bind fst snd]. change (py_range 1 (1 + 1)) with [1%nat].
    cbn [accumulate_over zrange nth_error make_zrange emax emin default_args bind].
    now destruct (add_to_slice 1 _ d).
  - apply gaussian_pos. reflexivity.
  - intros [H _]. vm_compute in H. now apply H.
  - intros i Hi.
    assert (L : inject_Z 363 <= inject_Z (Z.of_nat i)) by (rewrite <- Zle_Qle; lia).
    assert (U : inject_Z (Z.of_nat i) <= inject_Z 437) by (rewrite <- Zle_Qle; lia).
    unfold bin_energy, cutoff. simpl emin. simpl de. simpl sigma. simpl nsigmacut.
    set (q := inject_Z (Z.of_nat i)) in *.
    change (inject_Z 363) with (363 # 1) in L.
    change (inject_Z 437) with (437 # 1) in U.
    change (inject_Z 5) with (5 # 1). clearbody q.
    split; [Lqa.lra|]. split; [Lqa.lra|].
    simpl. intros [E | []]. lia.
Qed.

(** ** The matching loop *)

Lemma cube_matches_iff (index spin_id : Z) (c : WfnCube) :
  cube_matches index spin_id c = true <->
  wfn c = index /\ spin c = (spin_id + 1)%Z.
Proof.
  unfold cube_matches. rewrite andb_true_iff, !Z.eqb_eq. tauto.
Qed.

Lemma find_cube_some (index spin_id : Z) (cs : list WfnCube) :
  forall k0 k,
    find_cube index spin_id k0 cs = Some k <->
    (k0 <= k)%nat /\
    (exists c, nth_error cs (k - k0) = Some c /\
               cube_matches index spin_id c = true) /\
    (forall j c, (j < k - k0)%nat -> nth_error cs j = Some c ->
                 cube_matches index spin_id c = false).
Proof.
  induction cs as [|c0 r IH]; intros k0 k; simpl.
  - split; [discriminate|]. intros (_ & (c & H & _) & _).
    now destruct (k - k0)%nat.
  - destruct (cube_matches index spin_id c0) eqn:M.
    + split.
      * intros [= <-]. rewrite Nat.sub_diag. split; [lia|]. split.
        -- now exists c0.
        -- intros j c Hj. lia.
      * intros (Hle & _ & Hlt). f_equal.
        destruct (k - k0)%nat eqn:E; [lia|].
        specialize (Hlt 0%nat c0 ltac:(lia) eq_refl). congruence.
    + rewrite IH. split.
      * intros (Hle & (c & Hc & Hm) & Hlt).
        split; [lia|]. replace (k - k0)%nat with (S (k - S k0)) by lia.
        split; [now exists c|].
        intros [|j] c' Hj Hn; simpl in Hn; [congruence|].
        apply (Hlt j); [lia | assumption].
      * intros (Hle & (c & Hc & Hm) & Hlt).
        destruct (k - k0)%nat as [|n] eqn:E.
        { simpl in Hc. congruence. }
        replace (k - S k0)%nat with n by lia. simpl in Hc.
        split; [lia|]. split; [now exists c|].
        intros j c' Hj Hn. apply (Hlt (S j)); [lia | exact Hn].
Qed.

Lemma find_cube_none (index spin_id : Z) (cs : list WfnCube) :
  forall k0,
    (forall c, In c cs -> cube_matches index spin_id c = false) ->
    find_cube index spin_id k0 cs = None.
Proof.
  induction cs as [|c0 r IH]; intros k0 H; simpl; [reflexivity|].
  rewrite (H c0) by now left. apply IH. intros c Hc. apply H. now right.
Qed.

Lemma find_cube_same_header (index spin_id : Z) (cs cs' : list WfnCube) :
  Forall2 same_header cs cs' ->
  forall k0, find_cube index spin_id k0 cs = find_cube index spin_id k0 cs'.
Proof.
  induction 1 as [|c c' r r' (_ & Hw & Hs) _ IH]; intros k0; simpl.
  - reflexivity.
  - unfold cube_matches. rewrite Hw, Hs.
    destruct ((wfn c' =? index)%Z && (spin c' =? spin_id + 1)%Z); auto.
Qed.

Lemma select_cube_same_header (a : Args) (cs cs' : list WfnCube)
  (spin_id index : Z) (l : Level) :
  Forall2 same_header cs cs' ->
  select_cube a cs spin_id index l = select_cube a cs' spin_id index l.
Proof.
  intros H. unfold select_cube.
  destruct (in_window a (l_energy l)); [|reflexivity].
  now apply find_cube_same_header.
Qed.

Lemma same_header_refl (cs : list WfnCube) : Forall2 same_header cs cs.
Proof. induction cs; constructor; auto. now repeat split. Qed.

Lemma same_header_trans (c1 c2 c3 : list WfnCube) :
  Forall2 same_header c1 c2 -> Forall2 same_header c2 c3 ->
  Forall2 same_header c1 c3.
Proof.
  intros H. revert c3. induction H as [|a b r r' (F & W & S) _ IH];
    intros c3 H3; inversion H3 as [|b' c' r2 r3 (F' & W' & S') Hr]; subst.
  - constructor.
  - constructor; [|now apply IH]. repeat split; congruence.
Qed.

Lemma same_header_update (cs : list WfnCube) :
  forall k c e o, nth_error cs k = Some c ->
    Forall2 same_header cs (list_update k (set_level c e o) cs).
Proof.
  induction cs as [|c0 r IH]; intros [|k] c e o H; simpl in *;
    try discriminate.
  - injection H as ->. constructor; [now repeat split | apply same_header_refl].
  - constructor; [now repeat split | now apply IH].
Qed.

Lemma match_level_header (a : Args) (spin_id index : Z) (l : Level)
  (st : match_state) :
  Forall2 same_header (cubes st) (cubes (match_level a spin_id index l st)).
Proof.
  unfold match_level.
  destruct (select_cube a (cubes st) spin_id index l) as [k|]; simpl.
  - destruct (nth_error (cubes st) k) eqn:E.
    + now apply same_header_update.
    + apply same_header_refl.
  - destruct (in_window a (l_energy l)); apply same_header_refl.
Qed.

Lemma match_levels_header (a : Args) (spin_id : Z) (ls : list Level) :
  forall index st,
    Forall2 same_header (cubes st) (cubes (match_levels a spin_id index ls st)).
Proof.
  induction ls as [|l r IH]; intros index st; simpl.
  - apply same_header_refl.
  - eapply same_header_trans; [apply match_level_header | apply IH].
Qed.

Lemma match_level_required (a : Args) (spin_id index : Z) (l : Level)
  (st : match_state) :
  required (match_level a spin_id index l st) =
  required st ++ match select_cube a (cubes st) spin_id index l with
                 | Some k => [k]
                 | None => []
                 end.
Proof.
  unfold match_level.
  destruct (select_cube a (cubes st) spin_id index l); simpl; auto.
  destruct (in_window a (l_energy l)); simpl; now rewrite app_nil_r.
Qed.

Lemma match_level_printed (a : Args) (spin_id index : Z) (l : Level)
  (st : match_state) :
  printed (match_level a spin_id index l st) =
  printed st ++
    match select_cube a (cubes st) spin_id index l with
    | Some _ => [FoundCube (spin_id + 1) (l_energy l) (l_occupation l)]
    | None =>
        if in_window a (l_energy l)
        then [MissingCube (spin_id + 1) (l_energy l) (l_occupation l)]
        else []
    end.
Proof.
  unfold match_level.
  destruct (select_cube a (cubes st) spin_id index l); simpl; auto.
  destruct (in_window a (l_energy l)); simpl; now rewrite ?app_nil_r.
Qed.

Lemma match_levels_required (a : Args) (spin_id : Z) (ls : list Level) :
  forall index st k,
    In k (required (match_levels a spin_id index ls st)) <->
    In k (required st) \/
    exists j l, nth_error ls j = Some l /\
      select_cube a (cubes st) spin_id (index + Z.of_nat j) l = Some k.
Proof.
  induction ls as [|l r IH]; intros index st k; simpl.
  - split; [now left|]. intros [H | (j & l & H & _)]; [exact H|].
    now destruct j.
  - rewrite IH, match_level_required, in_app_iff.
    assert (HS : forall j l', select_cube a (cubes (match_level a spin_id index l st))
                   spin_id (index + 1 + Z.of_nat j) l'
                 = select_cube a (cubes st) spin_id (index + Z.of_nat (S j)) l').
    { intros j l'. replace (index + 1 + Z.of_nat j)%Z
        with (index + Z.of_nat (S j))%Z by lia.
      symmetry. apply select_cube_same_header, match_level_header. }
    split.
    + intros [[H | H] | (j & l' & Hn & Hs)].
      * now left.
      * right. exists 0%nat, l. split; [reflexivity|].
        rewrite Z.add_0_r.
        destruct (select_cube a (cubes st) spin_id index l) as [k'|];
          simpl in H; [|contradiction].
        destruct H as [-> | []]. reflexivity.
      * right. exists (S j), l'. split; [exact Hn|]. now rewrite <- HS.
    + intros [H | (j & l' & Hn & Hs)]; [now left; left|].
      destruct j as [|j]; simpl in Hn.
      * injection Hn as <-. rewrite Z.add_0_r in Hs. left; right.
        rewrite Hs. now left.
      * right. exists j, l'. split; [exact Hn|]. now rewrite HS.
Qed.

Lemma match_spectrum_header (a : Args) (sp : Spectrum) :
  forall st, Forall2 same_header (cubes st) (cubes (match_spectrum a sp st)).
Proof.
  induction sp as [|[s ls] r IH]; intros st; simpl.
  - apply same_header_refl.
  - eapply same_header_trans; [apply match_levels_header | apply IH].
Qed.

Lemma match_spectrum_required (a : Args) (sp : Spectrum) :
  forall st k,
    In k (required (match_spectrum a sp st)) <->
    In k (required st) \/
    exists s ls j l, In (s, ls) sp /\ nth_error ls j = Some l /\
      select_cube a (cubes st) s (Z.of_nat j) l = Some k.
Proof.
  induction sp as [|[s ls] r IH]; intros st k; simpl.
  - split; [now left|]. intros [H | (s & ls & j & l & [] & _)]. exact H.
  - rewrite IH, match_levels_required.
    assert (HS : forall s' i l',
               select_cube a (cubes (match_levels a s 0 ls st)) s' i l'
               = select_cube a (cubes st) s' i l').
    { intros. symmetry. apply select_cube_same_header, match_levels_header. }
    split.
    + intros [[H | (j & l & Hn & Hs)] | (s' & ls' & j & l & Hin & Hn & Hs)].
      * now left.
      * right. exists s, ls, j, l. auto.
      * right. exists s', ls', j, l. rewrite HS in Hs. auto.
    + intros [H | (s' & ls' & j & l & [Hin | Hin] & Hn & Hs)].
      * now left; left.
      * injection Hin as <- <-. left; right. exists j, l. auto.
      * right. exists s', ls', j, l. rewrite HS. auto.
Qed.

Lemma match_levels_printed (a : Args) (spin_id : Z) (ls : list Level) :
  forall index st,
    exists more,
      printed (match_levels a spin_id index ls st) = printed st ++ more /\
      (forall ev, In ev more ->
         exists s e o, ev = FoundCube s e o \/ ev = MissingCube s e o) /\
      (forall j l, nth_error ls j = Some l ->
         in_window a (l_energy l) = true ->
         select_cube a (cubes st) spin_id (index + Z.of_nat j) l = None ->
         In (MissingCube (spin_id + 1) (l_energy l) (l_occupation l)) more).
Proof.
  induction ls as [|l r IH]; intros index st; simpl.
  - exists []. rewrite app_nil_r. split; [reflexivity|].
    split; [intros ev []|]. intros [|j] l; discriminate.
  - destruct (IH (index + 1)%Z (match_level a spin_id index l st))
      as (more & Hp & Hev & Hmiss).
    rewrite Hp, match_level_printed, <- app_assoc.
    eexists. split; [reflexivity|]. split.
    + intros ev Hin. apply in_app_iff in Hin. destruct Hin as [Hin | Hin].
      * destruct (select_cube a (cubes st) spin_id index l).
        -- destruct Hin as [<- | []]. eauto.
        -- destruct (in_window a (l_energy l)); [|contradiction].
           destruct Hin as [<- | []]. eauto.
      * now apply Hev.
    + intros [|j] l' Hn Hw Hs; simpl in Hn; apply in_app_iff.
      * injection Hn as <-. rewrite Z.add_0_r in Hs. rewrite Hs, Hw.
        left. now left.
      * right. apply (Hmiss j l' Hn Hw).
        replace (index + 1 + Z.of_nat j)%Z with (index + Z.of_nat (S j))%Z by lia.
        rewrite <- Hs. symmetry.
        apply select_cube_same_header, match_level_header.
Qed.

Lemma match_spectrum_printed (a : Args) (sp : Spectrum) :
  forall st,
    exists more,
      printed (match_spectrum a sp st) = printed st ++ more /\
      (forall ev, In ev more ->
         exists s e o, ev = FoundCube s e o \/ ev = MissingCube s e o) /\
      (forall s ls j l, In (s, ls) sp -> nth_error ls j = Some l ->
         in_window a (l_energy l) = true ->
         select_cube a (cubes st) s (Z.of_nat j) l = None ->
         In (MissingCube (s + 1) (l_energy l) (l_occupation l)) more).
Proof.
  induction sp as [|[s ls] r IH]; intros st; simpl.
  - exists []. rewrite app_nil_r. split; [reflexivity|].
    split; [intros ev []|]. intros s ls j l [].
  - destruct (IH (match_levels a s 0 ls st)) as (more & Hp & Hev & Hmiss).
    destruct (match_levels_printed a s ls 0 st) as (m0 & Hp0 & Hev0 & Hmiss0).
    rewrite Hp, Hp0, <- app_assoc.
    eexists. split; [reflexivity|]. split.
    + intros ev Hin. apply in_app_iff in Hin. destruct Hin; auto.
    + intros s' ls' j l [Hin | Hin] Hn Hw Hs; apply in_app_iff.
      * injection Hin as <- <-. left. now apply (Hmiss0 j l).
      * right. apply (Hmiss s' ls' j l); auto.
        rewrite <- Hs. symmetry.
        apply select_cube_same_header, match_levels_header.
Qed.

(** ** What a run reads and writes *)

Lemma deref_in (store : list WfnCube) (refs : list nat) (c : WfnCube) :
  In c (deref store refs) ->
  exists k, In k refs /\ nth_error store k = Some c.
Proof.
  induction refs as [|k r IH]; simpl; [intros []|].
  destruct (nth_error store k) eqn:E.
  - intros [<- | H].
    + exists k. auto.
    + destruct (IH H) as (k' & Hk & Hn). exists k'. auto.
  - intros H. destruct (IH H) as (k' & Hk & Hn). exists k'. auto.
Qed.

Lemma same_header_nth (cs cs' : list WfnCube) :
  Forall2 same_header cs cs' ->
  forall k c', nth_error cs' k = Some c' ->
    exists c, nth_error cs k = Some c /\ same_header c c'.
Proof.
  induction 1 as [|c0 c0' r r' H0 _ IH]; intros [|k] c' Hn; simpl in *;
    try discriminate.
  - injection Hn as <-. now exists c0.
  - now apply IH.
Qed.

Lemma process_cube_trace (a : Args) (dk : Disk) (zr : list Q)
  (c : WfnCube) (st : run_state) :
  exists more,
    trace (fst (process_cube a dk zr c st)) = trace st ++ more /\
    forall ev, In ev more ->
      ev = ReadPlane (planefile a c) \/ ev = ReadData (filename c) \/
      ev = WritePlane (planefile a c).
Proof.
  unfold process_cube, get_plane, from_cube.
  destruct (assoc (planefile a c) (files st)) as [p|].
  - exists [ReadPlane (planefile a c)]. split.
    + now destruct (fold_plane a zr p _).
    + intros ev [<- | []]. auto.
  - destruct (cube_plane dk (filename c) (psisquared a)) as [p|e].
    + exists [ReadData (filename c); WritePlane (planefile a c)]. split.
      * now destruct (fold_plane a zr p _).
      * intros ev [<- | [<- | []]]; auto.
    + exists [ReadData (filename c)]. split; [reflexivity|].
      intros ev [<- | []]. auto.
Qed.

Lemma run_cubes_trace (a : Args) (dk : Disk) (zr : list Q)
  (cs : list WfnCube) :
  forall st, exists more,
    trace (fst (run_cubes a dk zr cs st)) = trace st ++ more /\
    forall ev, In ev more ->
      exists c, In c cs /\
        (ev = ReadPlane (planefile a c) \/ ev = ReadData (filename c) \/
         ev = WritePlane (planefile a c)).
Proof.
  induction cs as [|c r IH]; intros st; simpl.
  - exists []. rewrite app_nil_r. split; [reflexivity | intros ev []].
  - destruct (process_cube_trace a dk zr c st) as (m1 & H1 & E1).
    destruct (process_cube a dk zr c st) as [st1 [e|]]; simpl in H1.
    + exists m1. split; [exact H1|]. intros ev Hin. exists c. auto.
    + destruct (IH st1) as (m2 & H2 & E2).
      exists (m1 ++ m2). rewrite H2, H1, app_assoc. split; [reflexivity|].
      intros ev Hin. apply in_app_iff in Hin. destruct Hin as [Hin | Hin].
      * exists c. auto.
      * destruct (E2 ev Hin) as (c' & Hc & Hev). exists c'. auto.
Qed.

(** Every event of a run is a line of the matching loop, the read of the
    first required cube, an access for a required cube, or the final
    "Writing" line. *)
Lemma sts_main_trace (a : Args) (sp : Spectrum) (cs : list WfnCube)
  (dk : Disk) (ev : event) :
  In ev (fst (sts_main a sp cs dk)) ->
  (exists s e o, ev = FoundCube s e o \/ ev = MissingCube s e o) \/
  (exists c, In c (deref (cubes (required_cubes a sp cs))
                         (required (required_cubes a sp cs))) /\
     (ev = ReadPlane (planefile a c) \/ ev = ReadData (filename c) \/
      ev = WritePlane (planefile a c))) \/
  ev = PrintWriting (outfile a).
Proof.
  unfold sts_main.
  set (m := required_cubes a sp cs).
  assert (Hp : forall ev, In ev (printed m) ->
             exists s e o, ev = FoundCube s e o \/ ev = MissingCube s e o).
  { subst m. unfold required_cubes.
    destruct (match_spectrum_printed a sp {| cubes := cs; required := []; printed := [] |})
      as (more & Hm & Hev & _).
    rewrite Hm. simpl. exact Hev. }
  destruct (deref (cubes m) (required m)) as [|c0 req] eqn:D;
    cbv beta iota zeta.
  - intros H. left. now apply Hp.
  - assert (H0 : forall ev, In ev (printed m ++ [ReadData (filename c0)]) ->
       (exists s e o, ev = FoundCube s e o \/ ev = MissingCube s e o) \/
       (exists c, In c (c0 :: req) /\
          (ev = ReadPlane (planefile a c) \/ ev = ReadData (filename c) \/
           ev = WritePlane (planefile a c)))).
    { intros ev' Hin. apply in_app_iff in Hin. destruct Hin as [Hin | [<- | []]].
      - left. now apply Hp.
      - right. exists c0. split; [now left | auto]. }
    destruct (cube_shape dk (filename c0)) as [[nx ny]|e]; cbv beta iota zeta.
    2: { intros H. destruct (H0 ev H) as [H' | H']; auto. }
    destruct (init_stscube a nx ny) as [sc|e]; cbv beta iota zeta.
    2: { intros H. destruct (H0 ev H) as [H' | H']; auto. }
    match goal with |- context [run_cubes a dk ?z ?l ?s] =>
      destruct (run_cubes_trace a dk z l s) as (more & Ht & Hev);
      destruct (run_cubes a dk z l s) as [st [e|]] end;
      simpl in Ht; simpl.
    + rewrite Ht. intros Hin. apply in_app_iff in Hin.
      destruct Hin as [Hin | Hin].
      * destruct (H0 ev Hin) as [H' | H']; auto.
      * right; left. now apply Hev.
    + unfold write_output. simpl. rewrite Ht. intros Hin.
      apply in_app_iff in Hin. destruct Hin as [Hin | [<- | []]]; auto.
      apply in_app_iff in Hin. destruct Hin as [Hin | Hin].
      * destruct (H0 ev Hin) as [H' | H']; auto.
      * right; left. now apply Hev.
Qed.

(** C3, as amended: the loop selects header [k] for a level iff the energy
    is in [emin - sigma*nsigmacut, emax + sigma*nsigmacut], header [k] has
    the level's band index and its spin plus one, and no earlier header in
    the list has; [required_cubes] holds exactly the headers selected for
    the levels of the spectrum; and every volume whose full data a run
    loads is one of them. *)
Theorem selection_rule (a : Args) (sp : Spectrum) (cs : list WfnCube)
  (dk : Disk) :
  (forall s i l k,
     select_cube a cs s i l = Some k <->
     in_window a (l_energy l) = true /\
     (exists c, nth_error cs k = Some c /\ wfn c = i /\ spin c = (s + 1)%Z) /\
     (forall j c, (j < k)%nat -> nth_error cs j = Some c ->
                  ~ (wfn c = i /\ spin c = (s + 1)%Z))) /\
  (forall k,
     In k (required (required_cubes a sp cs)) <->
     exists s ls j l, In (s, ls) sp /\ nth_error ls j = Some l /\
       select_cube a cs s (Z.of_nat j) l = Some k) /\
  (forall f,
     In (ReadData f) (fst (sts_main a sp cs dk)) ->
     exists k c, In k (required (required_cubes a sp cs)) /\
       nth_error cs k = Some c /\ filename c = f).
Proof.
  split; [|split].
  - intros s i l k. unfold select_cube.
    destruct (in_window a (l_energy l)).
    + rewrite find_cube_some, Nat.sub_0_r. split.
      * intros (_ & (c & Hc & Hm) & Hlt). split; [reflexivity|]. split.
        -- exists c. split; [exact Hc|]. now apply cube_matches_iff.
        -- intros j c' Hj Hn Hm'. apply cube_matches_iff in Hm'.
           rewrite (Hlt j c' Hj Hn) in Hm'. discriminate.
      * intros (_ & (c & Hc & Hm) & Hlt). split; [lia|]. split.
        -- exists c. split; [exact Hc|]. now apply cube_matches_iff.
        -- intros j c' Hj Hn.
           destruct (cube_matches i s c') eqn:M; [|reflexivity].
           apply cube_matches_iff in M. now destruct (Hlt j c' Hj Hn).
    + split; [discriminate|]. intros (H & _). discriminate.
  - intros k. unfold required_cubes. rewrite match_spectrum_required. simpl.
    split; [intros [[] | H]; exact H | now right].
  - intros f Hin.
    destruct (sts_main_trace a sp cs dk _ Hin)
      as [(s & e & o & [H | H]) | [(c & Hc & H) | H]]; try discriminate.
    destruct H as [H | [H | H]]; try discriminate. injection H as ->.
    destruct (deref_in _ _ _ Hc) as (k & Hk & Hn).
    unfold required_cubes in Hn.
    destruct (same_header_nth
                (match_spectrum_header a sp {| cubes := cs; required := []; printed := [] |})
                k Hn) as (c1 & Hc1 & (Hf & _)).
    simpl in Hc1. exists k, c1. auto.
Qed.

(** C3, as stated, fails when two headers carry the same band and spin:
    with two cube files for band 3 of spin 1, the second one satisfies the
    rule for the level but the loop stops at the first. *)
Lemma selected_as_specified_fails :
  ~ selected_as_specified default_args twin_cubes 0 3 level_3 1.
Proof.
  intros [_ H].
  assert (E : select_cube default_args twin_cubes 0 3 level_3 = Some 1%nat).
  { apply H. split; [reflexivity|]. eexists. split; [reflexivity|]. now split. }
  vm_compute in E. discriminate.
Qed.

(** C4 for a spectrum whose only level, of energy 0.5, is in the window and
    one cube file of another band: the matching step prints the
    missing-cube line for the level, selects nothing and raises nothing;
    the script then stops at [required_cubes[0]] with [IndexError], whatever
    is on disk, and reads or writes no file. *)
Theorem missing_level_alone_aborts_run (dk : Disk) :
  in_window default_args (l_energy level_3) = true /\
  select_cube default_args [stray_cube] 0 0 level_3 = None /\
  required_cubes default_args one_level [stray_cube]
  = {| cubes := [stray_cube]; required := [];
       printed := [MissingCube 1 (1 # 2) 2] |} /\
  sts_main default_args one_level [stray_cube] dk
  = ([MissingCube 1 (1 # 2) 2], Some IndexError).
Proof.
  split; [reflexivity|]. split; [reflexivity|].
  assert (H : required_cubes default_args one_level [stray_cube]
              = {| cubes := [stray_cube]; required := [];
                   printed := [MissingCube 1 (1 # 2) 2] |}) by reflexivity.
  split; [exact H|]. unfold sts_main. rewrite H. reflexivity.
Qed.

(** ** Accumulation *)

Lemma bind_ok {A B} (m : res A) (k : A -> res B) (b : B) :
  bind m k = Ok b <-> exists x, m = Ok x /\ k x = Ok b.
Proof.
  destruct m as [x|e]; simpl.
  - split; [intros H; now exists x | now intros (y & [= <-] & H)].
  - split; [discriminate | now intros (y & [=] & _)].
Qed.

Lemma nth_error_update_eq {A} (l : list A) :
  forall i x y, nth_error l i = Some y ->
    nth_error (list_update i x l) i = Some x.
Proof.
  induction l as [|a r IH]; intros [|i] x y H; simpl in *;
    try discriminate; eauto.
Qed.

Lemma nth_error_update_neq {A} (l : list A) :
  forall i j x, i <> j ->
    nth_error (list_update i x l) j = nth_error l j.
Proof.
  induction l as [|a r IH]; intros [|i] [|j] x H; simpl; auto;
    try contradiction.
Qed.



Section ZipCommute.

Variables (A B : Type) (f : A -> B -> option A).

Hypothesis f_commute :
  forall a b1 b2 a1 a12,
    f a b1 = Some a1 -> f a1 b2 = Some a12 ->
    exists a2, f a b2 = Some a2 /\ f a2 b1 = Some a12.


End ZipCommute.



Lemma add_to_slice_ok (i : nat) (q : plane) (d d' : volume) :
  add_to_slice i q d = Ok d' <->
  exists s s', nth_error d i = Some s /\ plane_add s q = Some s' /\
               d' = list_update i s' d.
Proof.
  unfold add_to_slice. destruct (nth_error d i) as [s|].
  - destruct (plane_add s q) as [s'|] eqn:E.
    + split.
      * intros [= <-]. exists s, s'. auto.
      * intros (s0 & s1 & [= <-] & H & ->). rewrite E in H. now injection H as ->.
    + split; [discriminate|].
      intros (s0 & s1 & [= <-] & H & _). rewrite E in H. discriminate.
  - split; [discriminate | now intros (s0 & s1 & [=] & _)].
Qed.


Lemma accumulate_over_ok (a : Args) (zr : list Q) (p : plane) (e : Q)
  (i : nat) (r : list nat) (d d' : volume) :
  accumulate_over a zr p e (i :: r) d = Ok d' <->
  exists z d1, nth_error zr i = Some z /\
    add_to_slice i (plane_scale (gaussian a (e - z)) p) d = Ok d1 /\
    accumulate_over a zr p e r d1 = Ok d'.
Proof.
  simpl. destruct (nth_error zr i) as [z|].
  - rewrite bind_ok. split.
    + intros (d1 & H1 & H2). now exists z, d1.
    + intros (z' & d1 & [= <-] & H1 & H2). now exists d1.
  - split; [discriminate | now intros (z & d1 & [=] & _)].
Qed.





Lemma accumulate_over_seq (a : Args) (zr : list Q) (p : plane) (e : Q)
  (n : nat) :
  forall lo d d',
    accumulate_over a zr p e (seq lo n) d = Ok d' ->
    (forall i, (lo <= i < lo + n)%nat ->
       exists s z s',
         nth_error d i = Some s /\ nth_error zr i = Some z /\
         plane_add s (plane_scale (gaussian a (e - z)) p) = Some s' /\
         nth_error d' i = Some s') /\
    (forall i, (i < lo \/ lo + n <= i)%nat -> nth_error d' i = nth_error d i).
Proof.
  induction n as [|n IH]; intros lo d d' H.
  - simpl in H. injection H as <-. split; [intros i Hi; lia | reflexivity].
  - change (seq lo (S n)) with (lo :: seq (S lo) n) in H.
    apply accumulate_over_ok in H as (z & d1 & Hz & Ha & Hr).
    apply add_to_slice_ok in Ha as (s & s' & Hs & Hp & ->).
    destruct (IH _ _ _ Hr) as (Hin & Hout). split.
    + intros i Hi. destruct (Nat.eq_dec i lo) as [-> | Hne].
      * exists s, z, s'. repeat split; auto.
        rewrite Hout by lia. eapply nth_error_update_eq. exact Hs.
      * destruct (Hin i ltac:(lia)) as (t & zi & t' & Ht & Hzi & Hpt & Hd).
        rewrite nth_error_update_neq in Ht by auto.
        exists t, zi, t'. auto.
    + intros i Hi. rewrite Hout by lia.
      apply nth_error_update_neq. lia.
Qed.






(** ** The plane cache and [tmp] *)

(** C6: [tmp] is assigned in the iterations that miss the plane cache and
    in no other; an iteration that hits the cache while [tmp] is unbound
    ends the run with a name error for [tmp]; one that hits it with [tmp]
    bound folds the cached plane in with the window and the kernel centred
    at the energy of [tmp], whatever the energy of the current cube is; and
    a run whose first required cube has its plane file on disk raises that
    name error. *)
Theorem cache_hit_reads_stale_tmp (a : Args) (dk : Disk) (zr : list Q)
  (cube : WfnCube) (st : run_state) (p : plane) :
  assoc (planefile a cube) (files st) = Some p ->
  (forall c s, tmp (fst (process_cube a dk zr c s)) =
     match assoc (planefile a c) (files s) with
     | Some _ => tmp s
     | None => Some (from_cube c)
     end) /\
  (tmp st = None ->
   forall rest, snd (run_cubes a dk zr (cube :: rest) st)
                = Some (NameError "tmp")) /\
  (forall t e, tmp st = Some t -> energy t = Some e ->
     process_cube a dk zr cube st =
     let st1 := {| tmp := Some t; out := out st; files := files st;
                   trace := trace st ++ [ReadPlane (planefile a cube)] |} in
     match accumulate a zr (out st) p e with
     | Ok d => ({| tmp := Some t; out := d; files := files st;
                   trace := trace st1 |}, None)
     | Raise x => (st1, Some x)
     end) /\
  (forall sp cs req nx ny sc,
     deref (cubes (required_cubes a sp cs)) (required (required_cubes a sp cs))
     = cube :: req ->
     cube_shape dk (filename cube) = Ok (nx, ny) ->
     init_stscube a nx ny = Ok sc ->
     files st = plane_files dk ->
     snd (sts_main a sp cs dk) = Some (NameError "tmp")).
Proof.
  intros Hhit. split; [|split; [|split]].
  - intros c s. unfold process_cube, get_plane.
    destruct (assoc (planefile a c) (files s)) as [q|].
    + now destruct (fold_plane a zr q _).
    + destruct (cube_plane dk (filename (from_cube c)) (psisquared a)) as [q|x];
        [|reflexivity].
      now destruct (fold_plane a zr q _).
  - intros Ht rest. simpl. unfold process_cube, get_plane.
    rewrite Hhit. unfold fold_plane. simpl. now rewrite Ht.
  - intros t e Ht He. unfold process_cube, get_plane.
    rewrite Hhit. unfold fold_plane. simpl. rewrite Ht, He.
    now destruct (accumulate a zr (out st) p e).
  - intros sp cs req nx ny sc HD HS HI HF. unfold sts_main.
    rewrite HD, HS, HI. simpl. unfold process_cube, get_plane. simpl.
    rewrite <- HF, Hhit. reflexivity.
Qed.

Lemma cache_hit_reads_stale_tmp_witness :
  assoc (planefile default_args cached_cube) (files fresh_state)
  = Some [[1%R]] /\
  snd (run_cubes default_args no_cubes_on_disk axis3 [cached_cube] fresh_state)
  = Some (NameError "tmp").
Proof.
  assert (H : assoc (planefile default_args cached_cube) (files fresh_state)
              = Some [[1%R]]) by reflexivity.
  split; [exact H|].
  exact (proj1 (proj2 (@cache_hit_reads_stale_tmp default_args no_cubes_on_disk
                         axis3 cached_cube fresh_state [[1%R]] H))
           eq_refl []).
Defined.

(** ** The final statement *)

(** C7: the statement that should write the spectral volume looks up the
    name [sts], which the script never binds; it raises a name error after
    the "Writing" line, so no run ends without an exception and no run
    writes the output cube. *)
Theorem output_never_written (a : Args) :
  bound "sts" = false /\
  (forall tr, write_output a tr
              = (tr ++ [PrintWriting (outfile a)], Some (NameError "sts"))) /\
  (forall sp cs dk,
     snd (sts_main a sp cs dk) <> None /\
     forall f, ~ In (WriteCube f) (fst (sts_main a sp cs dk))).
Proof.
  split; [reflexivity|]. split; [reflexivity|].
  intros sp cs dk. split.
  - unfold sts_main.
    destruct (deref _ _) as [|c0 req]; [discriminate|].
    destruct (cube_shape dk (filename c0)) as [[nx ny]|e]; [|discriminate].
    destruct (init_stscube a nx ny) as [sc|e]; [|discriminate].
    destruct (run_cubes _ _ _ _ _) as [st [e|]]; discriminate.
  - intros f Hin.
    destruct (sts_main_trace a sp cs dk _ Hin)
      as [(s & e & o & [H | H]) | [(c & _ & [H | [H | H]]) | H]];
      discriminate.
Qed.

(** ** Further properties: the kernel *)

Lemma Qabs_le_square (x y : Q) : Qabs x <= Qabs y -> x * x <= y * y.
Proof.
  apply (Qabs_case x); intros Hx; apply (Qabs_case y); intros Hy H; Lqa.nra.
Qed.

(** X1: for a positive sigma the kernel over the reals is symmetric and
    not negative, is largest at zero, and does not grow as the distance
    grows. *)
Theorem gaussian_bell (a : Args) (x y : Q) :
  0 < sigma a ->
  gaussian a (- x) = gaussian a x /\
  (0 <= gaussian a x)%R /\
  (gaussian a x <= gaussian a 0)%R /\
  (Qabs x <= Qabs y -> (gaussian a y <= gaussian a x)%R).
Proof.
  intros Hs.
  assert (Hs' : (0 < Q2R (sigma a))%R).
  { replace 0%R with (Q2R 0) by (unfold Q2R; simpl; lra). now apply Qlt_Rlt. }
  assert (Hc : (0 < 1 / (Q2R (sigma a) * sqrt (2 * PI)))%R).
  { apply Rdiv_lt_0_compat; [lra|]. apply Rmult_lt_0_compat; [exact Hs'|].
    apply sqrt_lt_R0. generalize PI_RGT_0. lra. }
  assert (Hd : (0 < 2 * Q2R (sigma a) ^ 2)%R) by nra.
  assert (Hmono : forall u v : Q, (Q2R u * Q2R u <= Q2R v * Q2R v)%R ->
                    (gaussian a v <= gaussian a u)%R).
  { intros u v H. unfold gaussian. apply Rmult_le_compat_l; [lra|].
    destruct H as [H | H].
    - apply Rlt_le, exp_increasing. unfold Rdiv.
      apply Rmult_lt_compat_r; [now apply Rinv_0_lt_compat | lra].
    - apply Req_le. do 2 f_equal. lra. }
  split; [|split; [|split]].
  - unfold gaussian. rewrite Q2R_opp. do 3 f_equal. ring.
  - apply Rlt_le. now apply gaussian_pos.
  - apply Hmono. replace (Q2R 0) with 0%R by (unfold Q2R; simpl; lra). nra.
  - intros H. apply Hmono.
    apply Qabs_le_square, Qle_Rle in H. now rewrite !Q2R_mult in H.
Qed.

Lemma gaussian_bell_witness :
  0 < sigma default_args /\
  (gaussian default_args 2 <= gaussian default_args 1)%R.
Proof.
  assert (H : 0 < sigma default_args) by reflexivity.
  split; [exact H|].
  apply (proj2 (proj2 (proj2 (@gaussian_bell default_args 1 2 H)))).
  unfold Qle. simpl. lia.
Defined.

(** ** Further properties: the nearest-index lookup *)

Lemma argmin_from_spec (l : list Q) :
  forall best ibest i, (ibest < i)%nat ->
    exists m,
      ((argmin_from best ibest i l = ibest /\ m = best) \/
       (exists j, argmin_from best ibest i l = (i + j)%nat /\
                  nth_error l j = Some m /\ m < best)) /\
      m <= best /\
      (forall j y, nth_error l j = Some y ->
         m <= y /\ ((i + j < argmin_from best ibest i l)%nat -> m < y)).
Proof.
  induction l as [|x r IH]; intros best ibest i Hi; simpl.
  - exists best. split; [now left|]. split; [apply Qle_refl|].
    intros [|j] y; discriminate.
  - destruct (Qlt_le_dec x best) as [Hlt | Hle].
    + destruct (IH x i (S i) ltac:(lia)) as (m & Hcase & Hm & Hall).
      exists m. split; [|split].
      * right. destruct Hcase as [[E ->] | (j & E & Hn & Hlt')].
        -- exists 0%nat. rewrite E, Nat.add_0_r. auto.
        -- exists (S j). rewrite E. split; [lia|]. split; [exact Hn|].
           now apply Qlt_trans with x.
      * apply Qle_trans with x; [exact Hm | now apply Qlt_le_weak].
      * intros [|j] y Hn; simpl in Hn.
        -- injection Hn as <-. split; [exact Hm|]. intros Hr.
           destruct Hcase as [[E _] | (j & _ & _ & Hlt')]; [lia | exact Hlt'].
        -- destruct (Hall j y Hn) as (H1 & H2). split; [exact H1|].
           intros Hr. apply H2. lia.
    + destruct (IH best ibest (S i) ltac:(lia)) as (m & Hcase & Hm & Hall).
      exists m. split; [|split].
      * destruct Hcase as [[E ->] | (j & E & Hn & Hlt')]; [now left | right].
        exists (S j). rewrite E. split; [lia | auto].
      * exact Hm.
      * intros [|j] y Hn; simpl in Hn.
        -- injection Hn as <-. split; [now apply Qle_trans with best|].
           intros Hr.
           destruct Hcase as [[E _] | (j & _ & _ & Hlt')]; [lia|].
           now apply Qlt_le_trans with best.
        -- destruct (Hall j y Hn) as (H1 & H2). split; [exact H1|].
           intros Hr. apply H2. lia.
Qed.

Lemma argmin_spec (l : list Q) (k : nat) :
  argmin l = Ok k ->
  exists m, nth_error l k = Some m /\
    forall j y, nth_error l j = Some y ->
      m <= y /\ ((j < k)%nat -> m < y).
Proof.
  destruct l as [|x r]; simpl; [discriminate|]. intros [= <-].
  destruct (@argmin_from_spec r x 0%nat 1%nat ltac:(lia))
    as (m & Hcase & Hm & Hall).
  exists m. split.
  - destruct Hcase as [[-> ->] | (j & -> & Hn & _)]; [reflexivity | exact Hn].
  - intros [|j] y Hn; simpl in Hn.
    + injection Hn as <-. split; [exact Hm|]. intros Hr.
      destruct Hcase as [[E _] | (j & _ & _ & Hlt)]; [lia | exact Hlt].
    + destruct (Hall j y Hn) as (H1 & H2). split; [exact H1|].
      intros Hr. apply H2. lia.
Qed.

Lemma window_ok (a : Args) (zr : list Q) (e : Q) (imin imax : nat) :
  window a zr e = Ok (imin, imax) <->
  argmin (map (fun z => Qabs (z - (e - sigma a * inject_Z (nsigmacut a)))) zr)
  = Ok imin /\
  argmin (map (fun z => Qabs (z - (e + sigma a * inject_Z (nsigmacut a)))) zr)
  = Ok imax.
Proof.
  unfold window.
  destruct (argmin (map (fun z => Qabs (z - (e - sigma a * inject_Z (nsigmacut a)))) zr))
    as [i|x]; unfold bind.
  - destruct (argmin (map (fun z => Qabs (z - (e + sigma a * inject_Z (nsigmacut a)))) zr))
      as [j|y].
    + split; [intros H; injection H as <- <-; auto | intros [[= <-] [= <-]]; auto].
    + split; [discriminate | intros [_ [=]]].
  - split; [discriminate | intros [[=] _]].
Qed.

(** X2: [imin] is the lowest index whose axis entry is nearest to
    e - sigma*nsigmacut, and [imax] the lowest one nearest to
    e + sigma*nsigmacut; both are valid indices of the axis array.  On an
    empty axis array the lookup raises [ValueError]. *)
Theorem window_nearest_index (a : Args) (zr : list Q) (e : Q)
  (imin imax : nat) :
  window a zr e = Ok (imin, imax) ->
  let wmin := e - sigma a * inject_Z (nsigmacut a) in
  let wmax := e + sigma a * inject_Z (nsigmacut a) in
  window a [] e = Raise ValueError /\
  (imin < length zr)%nat /\ (imax < length zr)%nat /\
  exists zlo zhi,
    nth_error zr imin = Some zlo /\ nth_error zr imax = Some zhi /\
    forall j z, nth_error zr j = Some z ->
      (Qabs (zlo - wmin) <= Qabs (z - wmin) /\
       ((j < imin)%nat -> Qabs (zlo - wmin) < Qabs (z - wmin))) /\
      (Qabs (zhi - wmax) <= Qabs (z - wmax) /\
       ((j < imax)%nat -> Qabs (zhi - wmax) < Qabs (z - wmax))).
Proof.
  intros H wmin wmax. apply window_ok in H as (H1 & H2).
  apply argmin_spec in H1 as (m1 & Hn1 & Ha1).
  apply argmin_spec in H2 as (m2 & Hn2 & Ha2).
  rewrite nth_error_map in Hn1, Hn2.
  destruct (nth_error zr imin) as [zlo|] eqn:E1; [|discriminate].
  destruct (nth_error zr imax) as [zhi|] eqn:E2; [|discriminate].
  simpl in Hn1, Hn2. injection Hn1 as <-. injection Hn2 as <-.
  split; [reflexivity|].
  split; [apply nth_error_Some; congruence|].
  split; [apply nth_error_Some; congruence|].
  exists zlo, zhi. split; [reflexivity|]. split; [reflexivity|].
  intros j z Hz. split.
  - apply (Ha1 j). rewrite nth_error_map, Hz. reflexivity.
  - apply (Ha2 j). rewrite nth_error_map, Hz. reflexivity.
Qed.

Lemma window_nearest_index_witness :
  window default_args axis3 1 = Ok (1%nat, 1%nat) /\
  (1 < length axis3)%nat.
Proof.
  assert (H : window default_args axis3 1 = Ok (1%nat, 1%nat)) by reflexivity.
  split; [exact H|].
  exact (proj1 (proj2 (@window_nearest_index default_args axis3 1 1%nat 1%nat H))).
Defined.

Lemma window_bounds (a : Args) (zr : list Q) (e : Q) (imin imax : nat) :
  window a zr e = Ok (imin, imax) ->
  (imin < length zr)%nat /\ (imax < length zr)%nat.
Proof.
  intros H. apply window_ok in H as (H1 & H2).
  apply argmin_spec in H1 as (m1 & Hn1 & _).
  apply argmin_spec in H2 as (m2 & Hn2 & _).
  split.
  - rewrite <- (length_map (fun z => Qabs (z - (e - sigma a * inject_Z (nsigmacut a))))).
    apply nth_error_Some. congruence.
  - rewrite <- (length_map (fun z => Qabs (z - (e + sigma a * inject_Z (nsigmacut a))))).
    apply nth_error_Some. congruence.
Qed.

(** ** Further properties: which slices a run writes *)

Lemma accumulate_outside (a : Args) (zr : list Q) (d d' : volume)
  (p : plane) (e : Q) :
  accumulate a zr d p e = Ok d' ->
  forall i, (length zr <= i)%nat -> nth_error d' i = nth_error d i.
Proof.
  unfold accumulate. intros H i Hi.
  apply bind_ok in H as ([imin imax] & Hw & H). simpl in H.
  unfold py_range in H. apply accumulate_over_seq in H as (_ & Hout).
  apply window_bounds in Hw. apply Hout. lia.
Qed.

Lemma process_cube_out (a : Args) (dk : Disk) (zr : list Q) (c : WfnCube)
  (st : run_state) :
  out (fst (process_cube a dk zr c st)) = out st \/
  exists p e, accumulate a zr (out st) p e
              = Ok (out (fst (process_cube a dk zr c st))).
Proof.
  unfold process_cube.
  destruct (get_plane a dk c st) as [st1 [p|x]] eqn:G.
  - assert (Ho : out st1 = out st /\ True).
    { unfold get_plane in G.
      destruct (assoc (planefile a c) (files st)).
      - injection G as <- _. auto.
      - destruct (cube_plane dk (filename (from_cube c)) (psisquared a));
          injection G as <- _; auto. }
    destruct Ho as (Ho & _).
    destruct (fold_plane a zr p st1) as [d|x] eqn:F; simpl.
    + right. unfold fold_plane in F.
      destruct (tmp st1) as [t|]; [|discriminate].
      destruct (energy t) as [e|]; [|discriminate].
      exists p, e. now rewrite <- Ho.
    + now left.
  - left. simpl. unfold get_plane in G.
    destruct (assoc (planefile a c) (files st)); [discriminate|].
    destruct (cube_plane dk (filename (from_cube c)) (psisquared a));
      [discriminate|]. now injection G as <- _.
Qed.

(** X4: with the axis array that [init_stscube] builds, the loop over the
    required cubes never changes a slice of the output with index 3 or
    more, whatever the cubes, the planes and the energies are. *)
Theorem run_leaves_slices_from_3 (a : Args) (dk : Disk) (nx ny : nat)
  (sc : StsCube) (cs : list WfnCube) (st : run_state) :
  init_stscube a nx ny = Ok sc ->
  forall i, (3 <= i)%nat ->
    nth_error (out (fst (run_cubes a dk (zrange sc) cs st))) i
    = nth_error (out st) i.
Proof.
  intros Hi i Hge.
  assert (HL : length (zrange sc) = 3%nat).
  { unfold init_stscube in Hi.
    destruct (nbins a) as [n|x]; cbn [bind] in Hi; [|discriminate].
    destruct ((n <? - 2 ^ 63) || (2 ^ 63 <=? n))%Z; [discriminate|].
    destruct (n <? 0)%Z; [discriminate|]. now injection Hi as <-. }
  revert st. induction cs as [|c r IH]; intros st; simpl; [reflexivity|].
  pose proof (process_cube_out a dk (zrange sc) c st) as Ho.
  destruct (process_cube a dk (zrange sc) c st) as [st1 [x|]]; simpl in *.
  - destruct Ho as [-> | (p & e & Ha)]; [reflexivity|].
    apply (accumulate_outside _ _ _ _ _ Ha). lia.
  - rewrite IH. destruct Ho as [-> | (p & e & Ha)]; [reflexivity|].
    apply (accumulate_outside _ _ _ _ _ Ha). lia.
Qed.

Lemma run_leaves_slices_from_3_witness :
  init_stscube default_args 1 1
  = Ok {| data := zeros 1 1 601; origin2 := -3;
          zrange := make_zrange (-3) 3 601 |} /\
  snd (run_cubes default_args one_point_disk (make_zrange (-3) 3 601)
         [cached_cube] default_start) = None /\
  nth_error (out (fst (run_cubes default_args one_point_disk
                         (make_zrange (-3) 3 601) [cached_cube] default_start))) 3
  = Some [[0%R]].
Proof.
  pose proof (init_stscube_default 1 1) as H.
  split; [exact H|]. split; [reflexivity|].
  pose proof (@run_leaves_slices_from_3 default_args one_point_disk 1%nat 1%nat _
                [cached_cube] default_start H 3%nat (le_n 3)) as E.
  cbn [zrange] in E. rewrite E. reflexivity.
Defined.

(** ** Further properties: when accumulation succeeds *)

Lemma row_add_length (r1 r2 : list R) :
  length r1 = length r2 ->
  exists r, row_add r1 r2 = Some r /\ length r = length r1.
Proof.
  revert r2. induction r1 as [|x r1 IH]; intros [|y r2] H; simpl in *;
    try discriminate.
  - now exists [].
  - destruct (IH r2 ltac:(lia)) as (r & Hr & Hl).
    exists ((x + y)%R :: r). unfold row_add in *. simpl. rewrite Hr.
    simpl. split; [reflexivity | lia].
Qed.

Lemma plane_add_shape (nx ny : nat) (s q : plane) :
  has_shape nx ny s -> has_shape nx ny q ->
  exists s', plane_add s q = Some s' /\ has_shape nx ny s'.
Proof.
  unfold has_shape. revert nx q.
  induction s as [|r s IH]; intros nx [|rq q] [Hl Hf] [Hl' Hf'];
    simpl in *; try lia.
  - exists []. split; [reflexivity|]. split; [exact Hl | constructor].
  - inversion Hf as [|? ? Hr Hs]. inversion Hf' as [|? ? Hrq Hq]. subst.
    assert (Hrr : length r = length rq) by congruence.
    assert (Hqs : length q = length s) by lia.
    destruct (row_add_length _ _ Hrr) as (r' & Hr' & Hlr).
    destruct (IH (length s) q (conj eq_refl Hs) (conj Hqs Hq))
      as (s' & Hs' & Hl2 & Hf2).
    exists (r' :: s'). unfold plane_add in *. simpl. rewrite Hr', Hs'.
    split; [reflexivity|]. split; [simpl; lia|].
    constructor; [congruence | exact Hf2].
Qed.

Lemma plane_scale_shape (nx ny : nat) (w : R) (p : plane) :
  has_shape nx ny p -> has_shape nx ny (plane_scale w p).
Proof.
  unfold has_shape, plane_scale. intros [Hl Hf]. split.
  - now rewrite length_map.
  - apply Forall_map. eapply Forall_impl; [|exact Hf].
    intros row Hr. simpl. now rewrite length_map.
Qed.

Lemma length_update {A} (l : list A) :
  forall i x, length (list_update i x l) = length l.
Proof.
  induction l as [|a r IH]; intros [|i] x; simpl; auto.
Qed.

Lemma Forall_update {A} (P : A -> Prop) (l : list A) :
  forall i x, Forall P l -> P x -> Forall P (list_update i x l).
Proof.
  induction l as [|a r IH]; intros [|i] x Hf Hx; simpl; auto;
    inversion Hf; subst; constructor; auto.
Qed.

Lemma add_to_slice_shape (nx ny : nat) (i : nat) (q : plane) (d : volume) :
  Forall (has_shape nx ny) d -> has_shape nx ny q -> (i < length d)%nat ->
  exists d', add_to_slice i q d = Ok d' /\
             Forall (has_shape nx ny) d' /\ length d' = length d.
Proof.
  intros Hf Hq Hi. unfold add_to_slice.
  destruct (nth_error d i) as [s|] eqn:E.
  - assert (Hs : has_shape nx ny s).
    { apply nth_error_In in E. rewrite Forall_forall in Hf. now apply Hf. }
    destruct (plane_add_shape Hs Hq) as (s' & -> & Hs').
    eexists. split; [reflexivity|]. split.
    + now apply Forall_update.
    + apply length_update.
  - apply nth_error_None in E. lia.
Qed.

Lemma accumulate_over_seq_outcome (a : Args) (zr : list Q) (p : plane)
  (e : Q) (nx ny : nat) (n : nat) :
  has_shape nx ny p ->
  forall lo d,
    (lo + n <= length zr)%nat -> Forall (has_shape nx ny) d ->
    ((lo + n <= length d)%nat ->
     exists d', accumulate_over a zr p e (seq lo n) d = Ok d' /\
                Forall (has_shape nx ny) d' /\ length d' = length d) /\
    ((0 < n)%nat -> (length d < lo + n)%nat ->
     accumulate_over a zr p e (seq lo n) d = Raise IndexError).
Proof.
  intros Hp. induction n as [|n IH]; intros lo d Hz Hf.
  - split; [|lia]. intros _. now exists d.
  - change (seq lo (S n)) with (lo :: seq (S lo) n).
    cbn [accumulate_over].
    destruct (nth_error zr lo) as [z|] eqn:Ez.
    2: { apply nth_error_None in Ez. lia. }
    destruct (Nat.lt_ge_cases lo (length d)) as [Hlo | Hlo].
    + destruct (@add_to_slice_shape nx ny lo
                  (plane_scale (gaussian a (e - z)) p) d Hf
                  (plane_scale_shape _ Hp) Hlo) as (d1 & -> & Hf1 & Hl1).
      cbn [bind].
      destruct (IH (S lo) d1 ltac:(lia) Hf1) as (Hok & Hbad). split.
      * intros Hle. destruct (Hok ltac:(lia)) as (d' & -> & Hf' & Hl').
        exists d'. split; [reflexivity|]. split; [exact Hf' | lia].
      * intros _ Hlt. apply Hbad; lia.
    + split; [lia|]. intros _ _. unfold add_to_slice.
      assert (En : nth_error d lo = None) by now apply nth_error_None.
      now rewrite En.
Qed.

(** X5: on a volume whose slices all have the lateral shape of the plane,
    folding a plane in succeeds, and keeps the number and the shape of the
    slices, when the window is empty (imax < imin) or ends inside the
    volume (imax < number of slices); it raises [IndexError] when the
    window is not empty and imax is not the index of a slice. *)
Theorem accumulate_outcome (a : Args) (zr : list Q) (d : volume)
  (p : plane) (e : Q) (nx ny imin imax : nat) :
  Forall (has_shape nx ny) d -> has_shape nx ny p ->
  window a zr e = Ok (imin, imax) ->
  ((imax < imin \/ imax < length d)%nat ->
   exists d', accumulate a zr d p e = Ok d' /\
              Forall (has_shape nx ny) d' /\ length d' = length d) /\
  ((imin <= imax)%nat -> (length d <= imax)%nat ->
   accumulate a zr d p e = Raise IndexError).
Proof.
  intros Hf Hp Hw. unfold accumulate. rewrite Hw. cbn [bind fst snd].
  unfold py_range. destruct (window_bounds _ _ _ Hw) as (_ & Hb).
  destruct (Nat.le_gt_cases imin imax) as [Hle | Hgt].
  - destruct (@accumulate_over_seq_outcome a zr p e nx ny (imax + 1 - imin) Hp
                imin d ltac:(lia) Hf) as (Hok & Hbad).
    split.
    + intros [H | H]; [lia|]. apply Hok. lia.
    + intros _ H. apply Hbad; lia.
  - replace (imax + 1 - imin)%nat with 0%nat by lia. simpl. split; [|lia].
    intros _. now exists d.
Qed.

Lemma accumulate_outcome_witness :
  Forall (has_shape 1 1) (zeros 1 1 3) /\ has_shape 1 1 [[1%R]] /\
  window default_args axis3 1 = Ok (1%nat, 1%nat) /\
  exists d', accumulate default_args axis3 (zeros 1 1 3) [[1%R]] 1 = Ok d' /\
             length d' = 3%nat.
Proof.
  assert (H0 : has_shape 1 1 [[0%R]])
    by (split; [reflexivity | repeat constructor]).
  assert (H1 : Forall (has_shape 1 1) (zeros 1 1 3))
    by (repeat constructor; apply H0).
  assert (H2 : has_shape 1 1 [[1%R]])
    by (split; [reflexivity | repeat constructor]).
  assert (H3 : window default_args axis3 1 = Ok (1%nat, 1%nat)) by reflexivity.
  split; [exact H1|]. split; [exact H2|]. split; [exact H3|].
  destruct (proj1 (@accumulate_outcome default_args axis3 (zeros 1 1 3)
                     [[1%R]] 1 1%nat 1%nat 1%nat 1%nat H1 H2 H3))
    as (d' & Hd & _ & Hl).
  - right. simpl. lia.
  - exists d'. split; [exact Hd | exact Hl].
Defined.

(** ** Further properties: planes at one energy add up *)


Section ZipMerge.

Variables (A : Type) (f : A -> A -> option A) (g : A -> A).

Hypothesis f_merge :
  forall x y xy s s1 s2,
    f x y = Some xy -> f s (g x) = Some s1 -> f s1 (g y) = Some s2 ->
    f s (g xy) = Some s2.


End ZipMerge.






(** ** Further properties: the plane cache *)

Lemma assoc_cons (k k' : string) (v : plane) (l : list (string * plane)) :
  assoc k ((k', v) :: l) = if String.eqb k k' then Some v else assoc k l.
Proof. reflexivity. Qed.

(** What an iteration that finds no plane file does. *)
Lemma process_cube_miss (a : Args) (dk : Disk) (zr : list Q) (c : WfnCube)
  (st st' : run_state) :
  assoc (planefile a c) (files st) = None ->
  process_cube a dk zr c st = (st', None) ->
  exists p e,
    cube_plane dk (filename c) (psisquared a) = Ok p /\
    energy c = Some e /\
    accumulate a zr (out st) p e = Ok (out st') /\
    tmp st' = Some c /\
    files st' = (planefile a c, p) :: files st /\
    trace st' = trace st ++ [ReadData (filename c); WritePlane (planefile a c)].
Proof.
  intros Hm. unfold process_cube, get_plane, from_cube. rewrite Hm.
  destruct (cube_plane dk (filename c) (psisquared a)) as [p|x]; [|discriminate].
  unfold fold_plane. cbn [tmp out].
  destruct (energy c) as [e|]; [|discriminate].
  destruct (accumulate a zr (out st) p e) as [d|x] eqn:Ha; [|discriminate].
  intros [= <-]. exists p, e. repeat split; auto.
Qed.

(** X7: when no plane file exists for any required cube and no two of them
    share a plane file name, a loop that finishes has read every cube,
    written its plane file, and its output is the accumulation, in list
    order, of each cube's plane at that cube's own energy. *)
Theorem cold_cache_run (a : Args) (dk : Disk) (zr : list Q)
  (cs : list WfnCube) :
  NoDup (map (planefile a) cs) ->
  forall st st',
    (forall c, In c cs -> assoc (planefile a c) (files st) = None) ->
    run_cubes a dk zr cs st = (st', None) ->
    exists contribs,
      Forall2 (fun c pe =>
                 cube_plane dk (filename c) (psisquared a) = Ok (fst pe) /\
                 energy c = Some (snd pe) /\
                 assoc (planefile a c) (files st') = Some (fst pe))
              cs contribs /\
      accumulate_all a zr contribs (out st) = Ok (out st').
Proof.
  induction cs as [|c r IH]; intros Hnd st st' Hcold Hrun.
  - simpl in Hrun. injection Hrun as <-. exists []. split; [constructor|].
    reflexivity.
  - simpl in Hrun. inversion Hnd as [|? ? Hnin Hnd']; subst.
    destruct (process_cube a dk zr c st) as [st1 [x|]] eqn:Hp; [discriminate|].
    destruct (@process_cube_miss a dk zr c st st1 (Hcold c (or_introl eq_refl)) Hp)
      as (p & e & Hcp & He & Hacc & _ & Hfiles & _).
    assert (Hne : forall c', In c' r -> planefile a c' <> planefile a c).
    { intros c' Hc' E. apply Hnin. rewrite <- E. now apply in_map. }
    assert (Hcold1 : forall c', In c' r -> assoc (planefile a c') (files st1) = None).
    { intros c' Hc'. rewrite Hfiles, assoc_cons.
      destruct (String.eqb_spec (planefile a c') (planefile a c)) as [E | _].
      - now destruct (Hne c' Hc').
      - apply Hcold. now right. }
    destruct (IH Hnd' st1 st' Hcold1 Hrun) as (contribs & HF & Hall).
    assert (Hkeep : forall k v, assoc k (files st1) = Some v ->
                      (forall c', In c' r -> planefile a c' <> k) ->
                      assoc k (files st') = Some v).
    { clear - Hrun. revert st1 Hrun.
      induction r as [|c1 r1 IH1]; intros st1 Hrun k v Hk Hneq.
      - simpl in Hrun. now injection Hrun as <-.
      - simpl in Hrun.
        destruct (process_cube a dk zr c1 st1) as [st2 [x|]] eqn:Hp1;
          [discriminate|].
        apply (IH1 st2 Hrun); [|intros c' Hc'; apply Hneq; now right].
        unfold process_cube, get_plane in Hp1.
        destruct (assoc (planefile a c1) (files st1)) as [q|].
        + destruct (fold_plane a zr q _); [|discriminate].
          injection Hp1 as <-. exact Hk.
        + destruct (cube_plane dk (filename (from_cube c1)) (psisquared a)) as [q|];
            [|discriminate].
          destruct (fold_plane a zr q _); [|discriminate].
          injection Hp1 as <-. cbn [files]. rewrite assoc_cons.
          destruct (String.eqb_spec k (planefile a c1)) as [E | _]; [|exact Hk].
          exfalso. apply (Hneq c1 (or_introl eq_refl)). now symmetry. }
    exists ((p, e) :: contribs). split.
    + constructor; [|exact HF]. cbn [fst snd]. repeat split; auto.
      apply Hkeep; [|exact Hne].
      rewrite Hfiles, assoc_cons, String.eqb_refl. reflexivity.
    + cbn [accumulate_all]. rewrite Hacc. cbn [bind]. exact Hall.
Qed.

Lemma cold_cache_run_witness :
  NoDup (map (planefile default_args) [cached_cube]) /\
  (forall c, In c [cached_cube] ->
     assoc (planefile default_args c) (files cold_state) = None) /\
  exists st' contribs,
    run_cubes default_args one_point_disk axis3 [cached_cube] cold_state
    = (st', None) /\
    accumulate_all default_args axis3 contribs (out cold_state) = Ok (out st').
Proof.
  assert (H1 : NoDup (map (planefile default_args) [cached_cube]))
    by (repeat constructor; intros []).
  assert (H2 : forall c, In c [cached_cube] ->
                 assoc (planefile default_args c) (files cold_state) = None)
    by (intros c _; reflexivity).
  split; [exact H1|]. split; [exact H2|].
  eexists.
  assert (H3 : run_cubes default_args one_point_disk axis3 [cached_cube] cold_state
               = (_, None)) by reflexivity.
  destruct (@cold_cache_run default_args one_point_disk axis3 [cached_cube] H1
              cold_state _ H2 H3) as (contribs & _ & Hall).
  exists contribs. split; [exact H3 | exact Hall].
Defined.

Lemma process_cube_keeps_files (a : Args) (dk : Disk) (zr : list Q)
  (c : WfnCube) (st : run_state) (k : string) :
  assoc k (files st) <> None ->
  assoc k (files (fst (process_cube a dk zr c st))) <> None.
Proof.
  intros Hk. unfold process_cube, get_plane.
  destruct (assoc (planefile a c) (files st)) as [q|].
  - now destruct (fold_plane a zr q _).
  - destruct (cube_plane dk (filename (from_cube c)) (psisquared a)) as [q|];
      [|exact Hk].
    assert (H : assoc k ((planefile a c, q) :: files st) <> None).
    { rewrite assoc_cons. now destruct (String.eqb k (planefile a c)). }
    now destruct (fold_plane a zr q _).
Qed.

Lemma process_cube_leaves_file (a : Args) (dk : Disk) (zr : list Q)
  (c : WfnCube) (st st' : run_state) :
  process_cube a dk zr c st = (st', None) ->
  assoc (planefile a c) (files st') <> None.
Proof.
  unfold process_cube, get_plane.
  destruct (assoc (planefile a c) (files st)) as [q|] eqn:E.
  - destruct (fold_plane a zr q _); [|discriminate].
    intros [= <-]. cbn [files]. congruence.
  - destruct (cube_plane dk (filename (from_cube c)) (psisquared a)) as [q|];
      [|discriminate].
    destruct (fold_plane a zr q _); [|discriminate].
    intros [= <-]. cbn [files]. rewrite assoc_cons, String.eqb_refl. discriminate.
Qed.

Lemma run_cubes_keeps_files (a : Args) (dk : Disk) (zr : list Q)
  (cs : list WfnCube) (k : string) :
  forall st, assoc k (files st) <> None ->
    assoc k (files (fst (run_cubes a dk zr cs st))) <> None.
Proof.
  induction cs as [|c r IH]; intros st Hk; simpl; [exact Hk|].
  pose proof (@process_cube_keeps_files a dk zr c st k Hk) as H1.
  destruct (process_cube a dk zr c st) as [st1 [x|]]; simpl in *; auto.
Qed.

(** X8: a loop that finishes leaves a plane file for every cube it went
    through; so a later run over the same cubes, started on those plane
    files with [tmp] not yet bound, stops at its first cube with the name
    error for [tmp]. *)
Theorem rerun_on_warm_cache_fails (a : Args) (dk : Disk) (zr : list Q)
  (c : WfnCube) (cs : list WfnCube) (st st' : run_state) :
  run_cubes a dk zr (c :: cs) st = (st', None) ->
  (forall c', In c' (c :: cs) -> assoc (planefile a c') (files st') <> None) /\
  (forall dk' zr' st2,
     tmp st2 = None -> files st2 = files st' ->
     snd (run_cubes a dk' zr' (c :: cs) st2) = Some (NameError "tmp")).
Proof.
  intros Hrun.
  assert (Hall : forall l s s', run_cubes a dk zr l s = (s', None) ->
            forall c', In c' l -> assoc (planefile a c') (files s') <> None).
  { induction l as [|c1 r IH]; intros s s' Hr c' Hin; [destruct Hin|].
    simpl in Hr.
    destruct (process_cube a dk zr c1 s) as [s1 [x|]] eqn:Hp; [discriminate|].
    destruct Hin as [<- | Hin].
    - replace s' with (fst (run_cubes a dk zr r s1)) by now rewrite Hr.
      apply run_cubes_keeps_files. eapply process_cube_leaves_file. exact Hp.
    - eapply IH; eassumption. }
  split; [now apply (Hall _ _ _ Hrun)|].
  intros dk' zr' st2 Ht Hf.
  pose proof (Hall _ _ _ Hrun c (or_introl eq_refl)) as Hc.
  simpl. unfold process_cube, get_plane. rewrite Hf.
  destruct (assoc (planefile a c) (files st')) as [q|]; [|congruence].
  unfold fold_plane. cbn [tmp]. now rewrite Ht.
Qed.

Lemma rerun_on_warm_cache_fails_witness :
  exists st',
    run_cubes default_args one_point_disk axis3 [cached_cube] cold_state
    = (st', None) /\
    snd (run_cubes default_args one_point_disk axis3 [cached_cube]
           {| tmp := None; out := zeros 1 1 3; files := files st'; trace := [] |})
    = Some (NameError "tmp").
Proof.
  eexists.
  assert (H : run_cubes default_args one_point_disk axis3 [cached_cube] cold_state
              = (_, None)) by reflexivity.
  split; [exact H|].
  destruct (@rerun_on_warm_cache_fails default_args one_point_disk axis3
              cached_cube [] cold_state _ H) as (_ & Hre).
  apply Hre; reflexivity.
Defined.

(** X9: when every cube of the list has its plane file, the loop reads
    plane files only: it reads no cube data, writes no file, and leaves the
    plane files and [tmp] as they were. *)
Theorem warm_cache_reads_no_cube (a : Args) (dk : Disk) (zr : list Q)
  (cs : list WfnCube) (st : run_state) :
  (forall c, In c cs -> assoc (planefile a c) (files st) <> None) ->
  files (fst (run_cubes a dk zr cs st)) = files st /\
  tmp (fst (run_cubes a dk zr cs st)) = tmp st /\
  exists more,
    trace (fst (run_cubes a dk zr cs st)) = trace st ++ more /\
    forall ev, In ev more ->
      exists c, In c cs /\ ev = ReadPlane (planefile a c).
Proof.
  revert st. induction cs as [|c r IH]; intros st Hw; simpl.
  - split; [reflexivity|]. split; [reflexivity|]. exists [].
    rewrite app_nil_r. split; [reflexivity | intros ev []].
  - assert (Hstep : files (fst (process_cube a dk zr c st)) = files st /\
                    tmp (fst (process_cube a dk zr c st)) = tmp st /\
                    trace (fst (process_cube a dk zr c st))
                    = trace st ++ [ReadPlane (planefile a c)]).
    { unfold process_cube, get_plane.
      destruct (assoc (planefile a c) (files st)) as [q|] eqn:E.
      - now destruct (fold_plane a zr q _).
      - now destruct (Hw c (or_introl eq_refl)). }
    destruct (process_cube a dk zr c st) as [st1 [x|]]; simpl in *;
      destruct Hstep as (Hf & Ht & Htr).
    + split; [exact Hf|]. split; [exact Ht|].
      exists [ReadPlane (planefile a c)]. split; [exact Htr|].
      intros ev [<- | []]. exists c. auto.
    + destruct (IH st1) as (Hf' & Ht' & more & Htr' & Hev).
      { intros c' Hc'. rewrite Hf. apply Hw. now right. }
      split; [congruence|]. split; [congruence|].
      exists (ReadPlane (planefile a c) :: more). split.
      * rewrite Htr', Htr, <- app_assoc. reflexivity.
      * intros ev [<- | Hin]; [exists c; auto|].
        destruct (Hev ev Hin) as (c' & Hc' & ->). exists c'. auto.
Qed.

Lemma warm_cache_reads_no_cube_witness :
  (forall c, In c [cached_cube] ->
     assoc (planefile default_args c) (files fresh_state) <> None) /\
  files (fst (run_cubes default_args no_cubes_on_disk axis3 [cached_cube]
                fresh_state)) = files fresh_state.
Proof.
  assert (H : forall c, In c [cached_cube] ->
                assoc (planefile default_args c) (files fresh_state) <> None).
  { intros c [<- | []]. discriminate. }
  split; [exact H|].
  exact (proj1 (@warm_cache_reads_no_cube default_args no_cubes_on_disk axis3
                  [cached_cube] fresh_state H)).
Defined.

(** ** Further properties: the matching loop *)

Lemma select_cube_in_window (a : Args) (cs : list WfnCube) (s i : Z)
  (l : Level) (k : nat) :
  select_cube a cs s i l = Some k ->
  in_window a (l_energy l) = true /\
  exists c, nth_error cs k = Some c /\ wfn c = i /\ spin c = (s + 1)%Z.
Proof.
  unfold select_cube. destruct (in_window a (l_energy l)); [|discriminate].
  intros H. split; [reflexivity|].
  apply find_cube_some in H as (_ & (c & Hc & Hm) & _).
  rewrite Nat.sub_0_r in Hc. exists c. split; [exact Hc|].
  now apply cube_matches_iff.
Qed.

Lemma match_levels_count (a : Args) (s : Z) (ls : list Level) :
  forall i st,
    length (printed (match_levels a s i ls st))
    = (length (printed st)
       + length (filter (fun l => in_window a (l_energy l)) ls))%nat /\
    (length (required (match_levels a s i ls st))
     + length (filter (fun ev => match ev with MissingCube _ _ _ => true | _ => false end)
                      (printed (match_levels a s i ls st))))%nat
    = (length (required st)
       + length (filter (fun ev => match ev with MissingCube _ _ _ => true | _ => false end)
                        (printed st))
       + length (filter (fun l => in_window a (l_energy l)) ls))%nat.
Proof.
  induction ls as [|l r IH]; intros i st; simpl; [lia|].
  destruct (IH (i + 1)%Z (match_level a s i l st)) as (H1 & H2).
  rewrite H1, H2, match_level_printed, match_level_required.
  rewrite !length_app, !filter_app, !length_app.
  destruct (select_cube a (cubes st) s i l) as [k|] eqn:E.
  - apply select_cube_in_window in E as (-> & _). simpl. lia.
  - destruct (in_window a (l_energy l)); simpl; lia.
Qed.

(** X10: the matching loop prints exactly one line, found or missing, for
    every level whose energy passes the window test and none for the
    others; the required cubes and the missing lines together are as many as
    those levels; and the list of cube objects keeps its length. *)
Theorem one_line_per_level_in_window (a : Args) (sp : Spectrum)
  (cs : list WfnCube) :
  length (printed (required_cubes a sp cs))
  = length (levels_in_window a sp) /\
  (length (required (required_cubes a sp cs))
   + length (filter (fun ev => match ev with MissingCube _ _ _ => true | _ => false end)
                    (printed (required_cubes a sp cs))))%nat
  = length (levels_in_window a sp) /\
  length (cubes (required_cubes a sp cs)) = length cs.
Proof.
  unfold required_cubes, levels_in_window.
  assert (H : forall st,
    length (printed (match_spectrum a sp st))
    = (length (printed st)
       + length (filter (fun l => in_window a (l_energy l)) (flat_map snd sp)))%nat /\
    (length (required (match_spectrum a sp st))
     + length (filter (fun ev => match ev with MissingCube _ _ _ => true | _ => false end)
                      (printed (match_spectrum a sp st))))%nat
    = (length (required st)
       + length (filter (fun ev => match ev with MissingCube _ _ _ => true | _ => false end)
                        (printed st))
       + length (filter (fun l => in_window a (l_energy l)) (flat_map snd sp)))%nat).
  { induction sp as [|[s ls] r IH]; intros st; simpl; [lia|].
    destruct (IH (match_levels a s 0 ls st)) as (H1 & H2).
    destruct (match_levels_count a s ls 0 st) as (H3 & H4).
    rewrite H1, H2, H3, filter_app, length_app. lia. }
  destruct (H {| cubes := cs; required := []; printed := [] |}) as (H1 & H2).
  split; [exact H1|]. split; [exact H2|].
  symmetry.
  apply (Forall2_length
           (match_spectrum_header a sp {| cubes := cs; required := []; printed := [] |})).
Qed.

Lemma length_cubes_required (a : Args) (sp : Spectrum) (cs : list WfnCube) :
  length (cubes (required_cubes a sp cs)) = length cs.
Proof.
  symmetry. unfold required_cubes.
  apply (Forall2_length
           (match_spectrum_header a sp {| cubes := cs; required := []; printed := [] |})).
Qed.

Lemma match_level_carries (a : Args) (sp : Spectrum) (s i : Z) (l : Level)
  (st : match_state) :
  (exists ls j, In (s, ls) sp /\ nth_error ls j = Some l /\ i = Z.of_nat j) ->
  (forall k, In k (required st) ->
     exists c s' ls j l', nth_error (cubes st) k = Some c /\
       In (s', ls) sp /\ nth_error ls j = Some l' /\
       wfn c = Z.of_nat j /\ spin c = (s' + 1)%Z /\
       in_window a (l_energy l') = true /\
       energy c = Some (l_energy l') /\ occupation c = Some (l_occupation l')) ->
  forall k, In k (required (match_level a s i l st)) ->
    exists c s' ls j l', nth_error (cubes (match_level a s i l st)) k = Some c /\
      In (s', ls) sp /\ nth_error ls j = Some l' /\
      wfn c = Z.of_nat j /\ spin c = (s' + 1)%Z /\
      in_window a (l_energy l') = true /\
      energy c = Some (l_energy l') /\ occupation c = Some (l_occupation l').
Proof.
  intros (ls & j & Hin & Hn & ->) Hinv k Hk.
  unfold match_level in *.
  destruct (select_cube a (cubes st) s (Z.of_nat j) l) as [k0|] eqn:E.
  - apply select_cube_in_window in E as (Hw & c0 & Hc0 & Hwf & Hsp).
    cbn [required cubes] in *. rewrite Hc0.
    destruct (Nat.eq_dec k0 k) as [-> | Hne].
    + erewrite nth_error_update_eq by exact Hc0.
      exists (set_level c0 (l_energy l) (l_occupation l)), s, ls, j, l.
      simpl. repeat split; auto.
    + rewrite nth_error_update_neq by exact Hne.
      apply in_app_iff in Hk. destruct Hk as [Hk | [Hk | []]]; [|congruence].
      now apply Hinv.
  - destruct (in_window a (l_energy l)); cbn [required cubes] in *;
      now apply Hinv.
Qed.

(** X11: after the matching loop every entry of [required_cubes] refers to
    a cube object of the list, and that object carries the energy and the
    occupation of a level of the spectrum that is in the window and whose
    band index and spin (plus one) are the cube's. *)
Theorem required_cubes_carry_levels (a : Args) (sp : Spectrum)
  (cs : list WfnCube) (k : nat) :
  In k (required (required_cubes a sp cs)) ->
  (k < length cs)%nat /\
  exists c s ls j l,
    nth_error (cubes (required_cubes a sp cs)) k = Some c /\
    In (s, ls) sp /\ nth_error ls j = Some l /\
    wfn c = Z.of_nat j /\ spin c = (s + 1)%Z /\
    in_window a (l_energy l) = true /\
    energy c = Some (l_energy l) /\ occupation c = Some (l_occupation l).
Proof.
  intros Hk.
  assert (Hlev : forall s ls rest off st,
    In (s, ls) sp ->
    (forall j l, nth_error rest j = Some l -> nth_error ls (off + j) = Some l) ->
    (forall k, In k (required st) ->
       exists c s' ls j l', nth_error (cubes st) k = Some c /\
         In (s', ls) sp /\ nth_error ls j = Some l' /\
         wfn c = Z.of_nat j /\ spin c = (s' + 1)%Z /\
         in_window a (l_energy l') = true /\
         energy c = Some (l_energy l') /\ occupation c = Some (l_occupation l')) ->
    forall k, In k (required (match_levels a s (Z.of_nat off) rest st)) ->
      exists c s' ls j l',
        nth_error (cubes (match_levels a s (Z.of_nat off) rest st)) k = Some c /\
        In (s', ls) sp /\ nth_error ls j = Some l' /\
        wfn c = Z.of_nat j /\ spin c = (s' + 1)%Z /\
        in_window a (l_energy l') = true /\
        energy c = Some (l_energy l') /\ occupation c = Some (l_occupation l')).
  { intros s ls rest. induction rest as [|l r IH]; intros off st Hin Hsuf Hinv k0 Hk0.
    - simpl in *. now apply Hinv.
    - simpl in Hk0 |- *.
      replace (Z.of_nat off + 1)%Z with (Z.of_nat (S off)) in * by lia.
      apply (IH (S off) (match_level a s (Z.of_nat off) l st)); auto.
      + intros j l' Hn. replace (S off + j)%nat with (off + S j)%nat by lia.
        now apply Hsuf.
      + apply match_level_carries; [|exact Hinv].
        exists ls, off. split; [exact Hin|]. split; [|reflexivity].
        rewrite <- (Nat.add_0_r off). now apply Hsuf. }
  assert (Hsp : forall rest st,
    (forall x, In x rest -> In x sp) ->
    (forall k, In k (required st) ->
       exists c s' ls j l', nth_error (cubes st) k = Some c /\
         In (s', ls) sp /\ nth_error ls j = Some l' /\
         wfn c = Z.of_nat j /\ spin c = (s' + 1)%Z /\
         in_window a (l_energy l') = true /\
         energy c = Some (l_energy l') /\ occupation c = Some (l_occupation l')) ->
    forall k, In k (required (match_spectrum a rest st)) ->
      exists c s' ls j l',
        nth_error (cubes (match_spectrum a rest st)) k = Some c /\
        In (s', ls) sp /\ nth_error ls j = Some l' /\
        wfn c = Z.of_nat j /\ spin c = (s' + 1)%Z /\
        in_window a (l_energy l') = true /\
        energy c = Some (l_energy l') /\ occupation c = Some (l_occupation l')).
  { induction rest as [|[s ls] r IH]; intros st Hsub Hinv k0 Hk0.
    - simpl in *. now apply Hinv.
    - simpl in Hk0 |- *. apply IH; auto.
      + intros x Hx. apply Hsub. now right.
      + apply (Hlev s ls ls 0%nat st); auto. apply Hsub. now left. }
  destruct (Hsp sp {| cubes := cs; required := []; printed := [] |}
              (fun x H => H) (fun k0 (H : In k0 []) => match H with end) k Hk)
    as (c & s & ls & j & l & Hc & Hrest).
  split.
  - rewrite <- (length_cubes_required a sp cs).
    apply nth_error_Some. unfold required_cubes in *. congruence.
  - exists c, s, ls, j, l. auto.
Qed.

Lemma required_cubes_carry_levels_witness :
  In 0%nat (required (required_cubes default_args spectrum_3 twin_cubes)) /\
  (0 < length twin_cubes)%nat.
Proof.
  assert (H : In 0%nat (required (required_cubes default_args spectrum_3 twin_cubes)))
    by (left; reflexivity).
  split; [exact H|].
  exact (proj1 (@required_cubes_carry_levels default_args spectrum_3 twin_cubes
                  0%nat H)).
Defined.



End StsFacts.

(** * Properties of scripts/stm-plot.py *)
Module StmPlotFacts.

Import StmPlot.
Local Open Scope Q_scope.

(** ** The replication argument *)

(** C8 at [--replicate 1 2 3] with one height and one cube file: the
    script prints that the replicas are invalid, keeps the three values,
    and goes on to open the cube file; and whatever the replication
    argument is, a run with a job and a cube file opens that file. *)
Theorem malformed_replicate_opens_cube :
  startup three_replicas
  = ([PrintInvalidReplicas; PrintReading "a.cube"; OpenCube "a.cube"], None) /\
  fst (check_replicate (replicate three_replicas)) = Some (RepList [1; 2; 3]%Z) /\
  (forall h hs iso f rest r,
     In (OpenCube f)
        (fst (startup {| stmcubes := Some (f :: rest); heights := Some (h :: hs);
                         isovalues := iso; replicate := r |}))).
Proof.
  split; [reflexivity|]. split; [reflexivity|].
  intros h hs iso f rest r. unfold startup. simpl.
  apply in_app_iff. right. simpl. auto.
Qed.

(** ** Shapes *)

Lemma length_concat_uniform {A} (m : nat) (l : list (list A)) :
  (forall row, In row l -> length row = m) ->
  length (concat l) = (length l * m)%nat.
Proof.
  induction l as [|r l IH]; intros H; simpl; [reflexivity|].
  rewrite length_app, (H r) by now left. f_equal. apply IH.
  intros row Hr. apply H. now right.
Qed.

Lemma length_concat_repeat {A} (l : list A) (n : nat) :
  length (concat (repeat l n)) = (n * length l)%nat.
Proof.
  rewrite (@length_concat_uniform _ (length l)), repeat_length; [reflexivity|].
  intros row H. now apply repeat_spec in H as ->.
Qed.

(** A plane of [k] rows of [m] entries. *)
Lemma tile_shape (p : plane) (k m : nat) (rep : replica) :
  length p = k -> (forall row, In row p -> length row = m) ->
  length (tile p rep) = (fst rep * k)%nat /\
  (forall row, In row (tile p rep) -> length row = (snd rep * m)%nat).
Proof.
  intros Hk Hm. unfold tile. split.
  - now rewrite length_concat_repeat, length_map, Hk.
  - intros row H. apply in_concat in H as (blk & Hb & Hr).
    apply repeat_spec in Hb as ->. apply in_map_iff in Hr as (r0 & <- & Hr).
    now rewrite length_concat_repeat, (Hm r0 Hr).
Qed.

Lemma layer_shape (c : Cube) (k : nat) :
  length (layer c k) = fst (fst (shape c)) /\
  (forall row, In row (layer c k) -> length row = snd (fst (shape c))).
Proof.
  unfold layer. destruct (shape c) as [[nx ny] nz]. simpl. split.
  - now rewrite length_map, length_seq.
  - intros row H. apply in_map_iff in H as (i & <- & _).
    now rewrite length_map, length_seq.
Qed.

Lemma length_sample_positions (c : Cube) (rep : option replica) :
  length (sample_positions c rep)
  = (fst (grid_shape c rep) * snd (grid_shape c rep))%nat.
Proof.
  unfold sample_positions.
  destruct (cell c) as [[a0 a1] a2].
  destruct (grid_shape c rep) as [nx ny]. simpl.
  rewrite flat_map_concat_map, (@length_concat_uniform _ ny).
  - now rewrite length_map, length_seq.
  - intros row H. apply in_map_iff in H as (i & <- & _).
    now rewrite length_map, length_seq.
Qed.

(** ** The plotting path *)

Lemma get_plane_tiled (c : Cube) (v : Q) (rep : replica) (p : plane) :
  get_plane_above_atoms c v (Some rep) = Ok p ->
  exists k, p = tile (layer c k) rep.
Proof.
  unfold get_plane_above_atoms. destruct (shape c) as [[nx ny] nz].
  destruct ((layer_above_atoms c v <? 0)%Z || (Z.of_nat nz <=? layer_above_atoms c v)%Z);
    [discriminate|].
  intros [= <-]. now eexists.
Qed.

Lemma length_values_tiled_twice (c : Cube) (k : nat) (rep : replica) :
  length (sample_values (tile (layer c k) rep) (Some rep))
  = (fst rep * snd rep * length (sample_positions c (Some rep)))%nat.
Proof.
  destruct (layer_shape c k) as (Hk & Hm).
  destruct (@tile_shape (layer c k) _ _ rep eq_refl Hm) as (Hk1 & Hm1).
  destruct (@tile_shape (tile (layer c k) rep) _ _ rep eq_refl Hm1) as (Hk2 & Hm2).
  unfold sample_values, flatten.
  rewrite (@length_concat_uniform _ _ _ Hm2), Hk2, Hk1, Hk.
  rewrite length_sample_positions. unfold grid_shape.
  destruct (shape c) as [[nx ny] nz]. destruct rep as [r0 r1]. simpl. ring.
Qed.

Lemma griddata_length_mismatch (interp : list (Q * Q * Q) -> Q -> Q -> Q)
  (rejects : list Q -> list Q -> list Q -> list Q -> list Q -> option exn)
  (length_error : exn) (pos : list vec3) (vals xi yi : list Q) :
  length vals <> length pos ->
  griddata interp rejects length_error (xs pos) (ys pos) vals xi yi
  = Raise length_error.
Proof.
  intros H. unfold griddata, xs, ys. rewrite !length_map, Nat.eqb_refl.
  simpl. unfold vec3 in *.
  assert (E : (length pos =? length vals)%nat = false)
    by (apply Nat.eqb_neq; intros E; now apply H).
  now rewrite E.
Qed.

(** C10, as amended: with a replication factor (r0, r1) the plane that the
    extraction call returns is already tiled by it, [resample] tiles it
    again, and the value array handed to the interpolation has r0 * r1 times
    the entries of the coordinate lists; the lengths differ exactly when
    r0 * r1 is not 1 and the grid is not empty, and the interpolation call
    then fails. *)
Theorem plot_path_tiles_twice (c : Cube) (v : Q) (rep : replica) (p : plane) :
  get_plane_above_atoms c v (Some rep) = Ok p ->
  (exists k, p = tile (layer c k) rep) /\
  length (xs (sample_positions c (Some rep)))
  = length (sample_positions c (Some rep)) /\
  length (ys (sample_positions c (Some rep)))
  = length (sample_positions c (Some rep)) /\
  length (sample_values p (Some rep))
  = (fst rep * snd rep * length (sample_positions c (Some rep)))%nat /\
  (length (sample_values p (Some rep)) <> length (sample_positions c (Some rep))
   <-> (fst rep * snd rep <> 1 /\ length (sample_positions c (Some rep)) <> 0)%nat) /\
  ((fst rep * snd rep <> 1)%nat ->
   (length (sample_positions c (Some rep)) <> 0)%nat ->
   forall interp rejects length_error n,
     plot_height interp rejects length_error c v (Some rep) n
     = Raise length_error).
Proof.
  intros H. destruct (@get_plane_tiled c v rep p H) as (k & ->).
  pose proof (length_values_tiled_twice c k rep) as L.
  set (vals := sample_values (tile (layer c k) rep) (Some rep)) in *.
  set (pos := sample_positions c (Some rep)) in *.
  assert (HD : length vals <> length pos <->
               (fst rep * snd rep <> 1 /\ length pos <> 0)%nat).
  { rewrite L. split.
    - intros Hne. split; intros E; apply Hne; rewrite E; lia.
    - intros [H1 H2] E. destruct (fst rep * snd rep)%nat as [|[|n]]; [lia|lia|].
      simpl in E. lia. }
  split; [now exists k|]. split; [apply length_map|]. split; [apply length_map|].
  split; [exact L|]. split; [exact HD|].
  intros H1 H2 interp rejects length_error n. unfold plot_height. rewrite H. simpl.
  unfold resample. fold pos. fold vals.
  assert (HE : exists ext, extent_of pos = Ok ext).
  { unfold extent_of, xs, ys. destruct pos as [|w r]; [now destruct H2|].
    simpl. now eexists. }
  destruct HE as ([[[x0 x1] y0] y1] & ->). simpl.
  rewrite griddata_length_mismatch; [reflexivity|]. apply HD. auto.
Qed.

Lemma plot_path_tiles_twice_witness :
  get_plane_above_atoms unit_cube 0 (Some (2, 1)%nat)
  = Ok [[0; 1]; [0; 1]; [0; 1]; [0; 1]] /\
  length (sample_values [[0; 1]; [0; 1]; [0; 1]; [0; 1]] (Some (2, 1)%nat))
  = 16%nat /\
  length (sample_positions unit_cube (Some (2, 1)%nat)) = 8%nat /\
  plot_height interp_y accepts_all TypeError unit_cube 0 (Some (2, 1)%nat) 1000
  = Raise TypeError.
Proof.
  assert (H : get_plane_above_atoms unit_cube 0 (Some (2, 1)%nat)
              = Ok [[0; 1]; [0; 1]; [0; 1]; [0; 1]]) by reflexivity.
  split; [exact H|]. split; [reflexivity|]. split; [reflexivity|].
  destruct (@plot_path_tiles_twice unit_cube 0 (2, 1)%nat _ H)
    as (_ & _ & _ & _ & _ & HT).
  apply HT; simpl; discriminate.
Defined.

(** C10, as stated, fails for the replication factor (1, 1): tiling once
    or twice changes nothing, and values and coordinates have the same
    length. *)
Lemma double_tiling_as_specified_fails :
  ~ double_tiling_as_specified unit_cube 0 (1, 1)%nat.
Proof.
  intros H. destruct (H _ eq_refl) as [_ Hne]. now apply Hne.
Qed.

(** ** Resampling *)

Lemma list_min_spec (l : list Q) :
  forall x, In (list_min x l) (x :: l) /\
            forall y, In y (x :: l) -> list_min x l <= y.
Proof.
  induction l as [|z r IH]; intros x; simpl.
  - split; [now left|]. intros y [<- | []]. apply Qle_refl.
  - destruct (Qlt_le_dec z x) as [Hlt | Hle].
    + destruct (IH z) as (Hin & Hlo). split.
      * right. exact Hin.
      * intros y [<- | Hy].
        -- apply Qle_trans with z; [apply Hlo; now left | now apply Qlt_le_weak].
        -- now apply Hlo.
    + destruct (IH x) as (Hin & Hlo). split.
      * destruct Hin as [Hin | Hin]; [now left | now right; right].
      * intros y [<- | [<- | Hy]].
        -- apply Hlo. now left.
        -- apply Qle_trans with x; [apply Hlo; now left | exact Hle].
        -- apply Hlo. now right.
Qed.

Lemma list_max_spec (l : list Q) :
  forall x, In (list_max x l) (x :: l) /\
            forall y, In y (x :: l) -> y <= list_max x l.
Proof.
  induction l as [|z r IH]; intros x; simpl.
  - split; [now left|]. intros y [<- | []]. apply Qle_refl.
  - destruct (Qlt_le_dec x z) as [Hlt | Hle].
    + destruct (IH z) as (Hin & Hhi). split.
      * right. exact Hin.
      * intros y [<- | Hy].
        -- apply Qle_trans with z; [now apply Qlt_le_weak | apply Hhi; now left].
        -- now apply Hhi.
    + destruct (IH x) as (Hin & Hhi). split.
      * destruct Hin as [Hin | Hin]; [now left | now right; right].
      * intros y [<- | [<- | Hy]].
        -- apply Hhi. now left.
        -- apply Qle_trans with x; [exact Hle | apply Hhi; now left].
        -- apply Hhi. now right.
Qed.



Lemma extent_of_spec (pos : list vec3) :
  pos <> [] ->
  exists x0 x1 y0 y1,
    extent_of pos = Ok (x0, x1, y0, y1) /\
    (forall w, In w pos ->
       (x0 <= fst (fst w) /\ fst (fst w) <= x1) /\
       (y0 <= snd (fst w) /\ snd (fst w) <= y1)) /\
    In x0 (xs pos) /\ In x1 (xs pos) /\ In y0 (ys pos) /\ In y1 (ys pos).
Proof.
  destruct pos as [|w0 r]; [congruence|]. intros _.
  unfold extent_of. simpl.
  destruct (list_min_spec (xs r) (fst (fst w0))) as (I1 & L1).
  destruct (list_max_spec (xs r) (fst (fst w0))) as (I2 & L2).
  destruct (list_min_spec (ys r) (snd (fst w0))) as (I3 & L3).
  destruct (list_max_spec (ys r) (snd (fst w0))) as (I4 & L4).
  do 4 eexists. split; [reflexivity|]. split; [|now repeat split].
  intros w Hw.
  assert (Hx : In (fst (fst w)) (fst (fst w0) :: xs r)).
  { destruct Hw as [<- | Hw]; [now left | right].
    unfold xs. now apply in_map with (f := fun v : vec3 => fst (fst v)). }
  assert (Hy : In (snd (fst w)) (snd (fst w0) :: ys r)).
  { destruct Hw as [<- | Hw]; [now left | right].
    unfold ys. now apply in_map with (f := fun v : vec3 => snd (fst v)). }
  repeat split; auto.
Qed.





(** ** Further properties: tiling *)

Lemma concat_repeat_one {A} (l : list A) : concat (repeat l 1) = l.
Proof. simpl. apply app_nil_r. Qed.

Lemma concat_repeat_mul {A} (l : list A) (a c : nat) :
  concat (repeat (concat (repeat l a)) c) = concat (repeat l (c * a)).
Proof.
  induction c as [|c IH]; simpl; [reflexivity|].
  now rewrite repeat_app, concat_app, IH.
Qed.

Lemma map_concat_repeat {A B} (f : A -> B) (l : list A) (n : nat) :
  map f (concat (repeat l n)) = concat (repeat (map f l) n).
Proof.
  induction n as [|n IH]; simpl; [reflexivity|]. now rewrite map_app, IH.
Qed.

(** X13: tiling by (1, 1) returns the plane itself, and [resample] with the
    replication factor (1, 1) returns what it returns without one. *)
Theorem tile_one_is_identity (p : plane) :
  tile p (1, 1)%nat = p /\
  forall interp rejects length_error c n,
    resample interp rejects length_error p c (Some (1, 1)%nat) n
    = resample interp rejects length_error p c None n.
Proof.
  assert (H : tile p (1, 1)%nat = p).
  { unfold tile. cbn [fst snd]. rewrite concat_repeat_one.
    rewrite <- (map_id p) at 2. apply map_ext. intros row.
    apply concat_repeat_one. }
  split; [exact H|]. intros interp rejects length_error c n.
  unfold resample, sample_values, sample_positions, grid_shape.
  rewrite H. destruct (shape c) as [[nx ny] nz]. now rewrite !Nat.mul_1_r.
Qed.

(** X14: tiling a plane by (a, b) and the result by (c, d) gives the plane
    tiled by (c*a, d*b). *)
Theorem tile_twice (p : plane) (a b c d : nat) :
  tile (tile p (a, b)) (c, d) = tile p (c * a, d * b)%nat.
Proof.
  unfold tile. cbn [fst snd].
  rewrite map_concat_repeat, concat_repeat_mul, map_map.
  do 2 f_equal. apply map_ext. intros row. apply concat_repeat_mul.
Qed.

Lemma nth_error_concat_repeat {A} (l : list A) (n i : nat) :
  (i < n * length l)%nat ->
  nth_error (concat (repeat l n)) i = nth_error l (i mod length l).
Proof.
  revert i. induction n as [|n IH]; intros i Hi; [simpl in Hi; lia|].
  simpl. simpl in Hi.
  destruct (Nat.lt_ge_cases i (length l)) as [Hlt | Hge].
  - rewrite nth_error_app1 by exact Hlt. now rewrite Nat.mod_small.
  - rewrite nth_error_app2 by exact Hge. rewrite IH by lia.
    f_equal.
    replace i with ((i - length l) + 1 * length l)%nat at 2 by lia.
    rewrite Nat.Div0.mod_add. reflexivity.
Qed.

(** X15: the tiled plane is periodic: for a plane of k rows of m entries,
    the entry (i, j) of the plane tiled by (r0, r1), with i < r0*k and
    j < r1*m, is the entry (i mod k, j mod m) of the plane. *)
Theorem tile_is_periodic (p : plane) (k m : nat) (rep : replica) (i j : nat) :
  length p = k -> (forall row, In row p -> length row = m) ->
  (i < fst rep * k)%nat -> (j < snd rep * m)%nat ->
  exists row prow v,
    nth_error (tile p rep) i = Some row /\ nth_error row j = Some v /\
    nth_error p (i mod k) = Some prow /\ nth_error prow (j mod m) = Some v.
Proof.
  intros Hk Hm Hi Hj. unfold tile.
  assert (Hrow : nth_error (concat (repeat (map (fun row => concat (repeat row (snd rep))) p)
                                           (fst rep))) i
                 = nth_error (map (fun row => concat (repeat row (snd rep))) p) (i mod k)).
  { rewrite nth_error_concat_repeat; rewrite length_map, Hk; [reflexivity | exact Hi]. }
  rewrite Hrow, nth_error_map.
  assert (Hik : (i mod k < length p)%nat).
  { rewrite Hk. apply Nat.mod_upper_bound. lia. }
  destruct (nth_error p (i mod k)) as [prow|] eqn:Ep.
  2: { apply nth_error_None in Ep. lia. }
  assert (Hlen : length prow = m) by (apply Hm; eapply nth_error_In; exact Ep).
  cbn [option_map].
  assert (Hv : nth_error (concat (repeat prow (snd rep))) j
               = nth_error prow (j mod m)).
  { rewrite nth_error_concat_repeat; rewrite Hlen; [reflexivity | exact Hj]. }
  destruct (nth_error prow (j mod m)) as [v|] eqn:Ev.
  2: { apply nth_error_None in Ev. rewrite Hlen in Ev.
       assert (j mod m < m)%nat by (apply Nat.mod_upper_bound; lia). lia. }
  exists (concat (repeat prow (snd rep))), prow, v. auto.
Qed.

Lemma tile_is_periodic_witness :
  length unit_plane = 2%nat /\
  (forall row, In row unit_plane -> length row = 2%nat) /\
  exists row prow v,
    nth_error (tile unit_plane (2, 1)%nat) 3 = Some row /\
    nth_error row 1 = Some v /\
    nth_error unit_plane (3 mod 2) = Some prow /\
    nth_error prow (1 mod 2) = Some v.
Proof.
  assert (H1 : length unit_plane = 2%nat) by reflexivity.
  assert (H2 : forall row, In row unit_plane -> length row = 2%nat).
  { intros row [<- | [<- | []]]; reflexivity. }
  split; [exact H1|]. split; [exact H2|].
  apply (@tile_is_periodic unit_plane 2%nat 2%nat (2, 1)%nat 3%nat 1%nat H1 H2);
    simpl; lia.
Defined.

(** ** Further properties: sample points *)

Lemma in_sample_positions (c : Cube) (rep : option replica) (w : vec3) :
  In w (sample_positions c rep) <->
  exists i j, (i < fst (grid_shape c rep))%nat /\
              (j < snd (grid_shape c rep))%nat /\ w = grid_point c i j.
Proof.
  unfold sample_positions, grid_point.
  destruct (cell c) as [[a0 a1] a2]. cbn [fst snd].
  destruct (grid_shape c rep) as [nx ny]. cbn [fst snd].
  rewrite in_flat_map. split.
  - intros (i & Hi & Hw). apply in_map_iff in Hw as (j & <- & Hj).
    apply in_seq in Hi. apply in_seq in Hj.
    exists i, j. repeat split; lia.
  - intros (i & j & Hi & Hj & ->). exists i. split.
    + apply in_seq. lia.
    + apply in_map_iff. exists j. split; [reflexivity|]. apply in_seq. lia.
Qed.

Lemma nth_error_concat_uniform {A} (m : nat) (l : list (list A)) :
  (forall row, In row l -> length row = m) ->
  forall i j, (j < m)%nat ->
    nth_error (concat l) (i * m + j)
    = match nth_error l i with
      | Some row => nth_error row j
      | None => None
      end.
Proof.
  induction l as [|r l IH]; intros Hm i j Hj.
  - simpl. now destruct i; destruct (_ + _)%nat.
  - assert (Hr : length r = m) by (apply Hm; now left).
    destruct i as [|i]; simpl.
    + rewrite nth_error_app1 by lia. reflexivity.
    + rewrite nth_error_app2 by lia.
      replace (m + i * m + j - length r)%nat with (i * m + j)%nat by lia.
      apply IH; [|exact Hj]. intros row Hrow. apply Hm. now right.
Qed.

Lemma nth_error_combine {A B} (l1 : list A) (l2 : list B) :
  forall n, nth_error (combine l1 l2) n
            = match nth_error l1 n, nth_error l2 n with
              | Some x, Some y => Some (x, y)
              | _, _ => None
              end.
Proof.
  revert l2. induction l1 as [|x l1 IH]; intros [|y l2] [|n]; simpl; auto.
  now destruct (nth_error l1 n).
Qed.

Lemma nth_error_sample_positions (c : Cube) (rep : option replica) (i j : nat) :
  (i < fst (grid_shape c rep))%nat -> (j < snd (grid_shape c rep))%nat ->
  nth_error (sample_positions c rep) (i * snd (grid_shape c rep) + j)
  = Some (grid_point c i j).
Proof.
  intros Hi Hj. unfold sample_positions, grid_point.
  destruct (cell c) as [[a0 a1] a2]. cbn [fst snd].
  destruct (grid_shape c rep) as [nx ny]. cbn [fst snd] in *.
  rewrite flat_map_concat_map, (@nth_error_concat_uniform _ ny).
  - rewrite nth_error_map, nth_error_seq.
    destruct (Nat.ltb_spec i nx); [|lia]. cbn [option_map].
    rewrite nth_error_map, nth_error_seq.
    destruct (Nat.ltb_spec j ny); [|lia]. reflexivity.
  - intros row H. apply in_map_iff in H as (i' & <- & _).
    now rewrite length_map, length_seq.
  - exact Hj.
Qed.

(** X16: when the plane, after the tiling inside [resample], has one row
    per grid row and one entry per grid column, the sample of index
    i*ny + j that the interpolation receives pairs the position
    i*dx + j*dy of the grid point (i, j) with the entry (i, j) of that
    plane. *)
Theorem samples_follow_grid (p : plane) (c : Cube) (rep : option replica)
  (i j : nat) :
  length (replicated p rep) = fst (grid_shape c rep) ->
  (forall row, In row (replicated p rep) ->
     length row = snd (grid_shape c rep)) ->
  (i < fst (grid_shape c rep))%nat -> (j < snd (grid_shape c rep))%nat ->
  sample_values p rep = flatten (replicated p rep) /\
  exists row v,
    nth_error (replicated p rep) i = Some row /\
    nth_error row j = Some v /\
    nth_error (samples p c rep) (i * snd (grid_shape c rep) + j)
    = Some (fst (fst (grid_point c i j)), snd (fst (grid_point c i j)), v).
Proof.
  intros Hk Hm Hi Hj. split; [reflexivity|].
  assert (Hsv : sample_values p rep = concat (replicated p rep)) by reflexivity.
  destruct (nth_error (replicated p rep) i) as [row|] eqn:Er.
  2: { apply nth_error_None in Er. rewrite Hk in Er. lia. }
  assert (Hrl : length row = snd (grid_shape c rep))
    by (apply Hm; eapply nth_error_In; exact Er).
  destruct (nth_error row j) as [v|] eqn:Ev.
  2: { apply nth_error_None in Ev. rewrite Hrl in Ev. lia. }
  exists row, v. split; [reflexivity|]. split; [exact Ev|].
  assert (Hv : nth_error (sample_values p rep) (i * snd (grid_shape c rep) + j)
               = Some v).
  { rewrite Hsv, (@nth_error_concat_uniform _ _ _ Hm i j Hj), Er. exact Ev. }
  pose proof (@nth_error_sample_positions c rep i j Hi Hj) as Hpos.
  unfold samples, xs, ys.
  rewrite !nth_error_combine, !nth_error_map.
  unfold vec3 in *. rewrite Hpos. cbn [option_map].
  now rewrite Hv.
Qed.

Lemma samples_follow_grid_witness :
  length (replicated unit_plane None) = fst (grid_shape unit_cube None) /\
  (forall row, In row (replicated unit_plane None) ->
     length row = snd (grid_shape unit_cube None)) /\
  exists row v,
    nth_error (replicated unit_plane None) 1 = Some row /\
    nth_error row 1 = Some v /\
    nth_error (samples unit_plane unit_cube None) (1 * 2 + 1)
    = Some (fst (fst (grid_point unit_cube 1 1)),
            snd (fst (grid_point unit_cube 1 1)), v).
Proof.
  assert (H1 : length (replicated unit_plane None)
               = fst (grid_shape unit_cube None)) by reflexivity.
  assert (H2 : forall row, In row (replicated unit_plane None) ->
                 length row = snd (grid_shape unit_cube None)).
  { intros row [<- | [<- | []]]; reflexivity. }
  split; [exact H1|]. split; [exact H2|].
  apply (@samples_follow_grid unit_plane unit_cube None 1%nat 1%nat H1 H2);
    simpl; lia.
Defined.

(** ** Further properties: the extent *)

Lemma grid_point_diagonal (c : Cube) (ax ay : Q) (a2 : vec3) (i j : nat) :
  cell c = ((ax, 0, 0), (0, ay, 0), a2) ->
  fst (fst (grid_point c i j))
  == inject_Z (Z.of_nat i) * (ax / inject_Z (Z.of_nat (fst (fst (shape c))))) /\
  snd (fst (grid_point c i j))
  == inject_Z (Z.of_nat j) * (ay / inject_Z (Z.of_nat (snd (fst (shape c))))).
Proof.
  intros Hc. unfold grid_point. rewrite Hc. cbn [fst snd].
  destruct (shape c) as [[nx ny] nz]. cbn [vdiv vscale vadd fst snd].
  unfold Qdiv. split; ring.
Qed.

(** X17: for a grid that is not empty over a cell diag(ax, ay, .) with
    ax, ay >= 0, the extent [resample] returns is, up to equality of
    rationals, (0, (nx'-1)*ax/nx, 0, (ny'-1)*ay/ny), where nx x ny is the
    shape of the cube and nx' x ny' the replicated grid: it ends one grid
    step before the edge of the replicated cell. *)
Theorem extent_of_diagonal_cell (c : Cube) (rep : option replica)
  (ax ay : Q) (a2 : vec3) :
  cell c = ((ax, 0, 0), (0, ay, 0), a2) -> 0 <= ax -> 0 <= ay ->
  (0 < fst (grid_shape c rep))%nat -> (0 < snd (grid_shape c rep))%nat ->
  exists x0 x1 y0 y1,
    extent_of (sample_positions c rep) = Ok (x0, x1, y0, y1) /\
    x0 == 0 /\
    x1 == inject_Z (Z.of_nat (fst (grid_shape c rep) - 1))
          * (ax / inject_Z (Z.of_nat (fst (fst (shape c))))) /\
    y0 == 0 /\
    y1 == inject_Z (Z.of_nat (snd (grid_shape c rep) - 1))
          * (ay / inject_Z (Z.of_nat (snd (fst (shape c))))).
Proof.
  intros Hc Hax Hay Hnx Hny.
  set (NX := fst (grid_shape c rep)) in *.
  set (NY := snd (grid_shape c rep)) in *.
  set (sx := ax / inject_Z (Z.of_nat (fst (fst (shape c))))).
  set (sy := ay / inject_Z (Z.of_nat (snd (fst (shape c))))).
  assert (Hsx : 0 <= sx).
  { unfold sx, Qdiv. apply Qmult_le_0_compat; [exact Hax|].
    apply Qinv_le_0_compat. rewrite <- (Zle_Qle 0). lia. }
  assert (Hsy : 0 <= sy).
  { unfold sy, Qdiv. apply Qmult_le_0_compat; [exact Hay|].
    apply Qinv_le_0_compat. rewrite <- (Zle_Qle 0). lia. }
  assert (Hpt : forall i j,
            fst (fst (grid_point c i j)) == inject_Z (Z.of_nat i) * sx /\
            snd (fst (grid_point c i j)) == inject_Z (Z.of_nat j) * sy).
  { intros i j. exact (@grid_point_diagonal c ax ay a2 i j Hc). }
  assert (Hne : sample_positions c rep <> []).
  { intros E. assert (Hin : In (grid_point c 0 0) (sample_positions c rep)).
    { apply in_sample_positions. exists 0%nat, 0%nat. auto. }
    rewrite E in Hin. destruct Hin. }
  destruct (extent_of_spec Hne)
    as (x0 & x1 & y0 & y1 & Hext & Hbox & Hx0 & Hx1 & Hy0 & Hy1).
  assert (Hcoord : forall q, In q (xs (sample_positions c rep)) ->
            exists i, (i < NX)%nat /\ q == inject_Z (Z.of_nat i) * sx).
  { intros q Hq. unfold xs in Hq. apply in_map_iff in Hq as (w & <- & Hw).
    apply in_sample_positions in Hw as (i & j & Hi & _ & ->).
    exists i. split; [exact Hi | apply Hpt]. }
  assert (Hcoordy : forall q, In q (ys (sample_positions c rep)) ->
            exists j, (j < NY)%nat /\ q == inject_Z (Z.of_nat j) * sy).
  { intros q Hq. unfold ys in Hq. apply in_map_iff in Hq as (w & <- & Hw).
    apply in_sample_positions in Hw as (i & j & _ & Hj & ->).
    exists j. split; [exact Hj | apply Hpt]. }
  assert (Hlow : In (grid_point c 0 0) (sample_positions c rep)).
  { apply in_sample_positions. exists 0%nat, 0%nat. auto. }
  assert (Hhigh : In (grid_point c (NX - 1) (NY - 1)) (sample_positions c rep)).
  { apply in_sample_positions. exists (NX - 1)%nat, (NY - 1)%nat.
    repeat split; lia. }
  destruct (Hbox _ Hlow) as ((Lx0 & _) & (Ly0 & _)).
  destruct (Hbox _ Hhigh) as ((_ & Ux1) & (_ & Uy1)).
  destruct (Hpt 0%nat 0%nat) as (Px0 & Py0).
  destruct (Hpt (NX - 1)%nat (NY - 1)%nat) as (Px1 & Py1).
  rewrite Px0 in Lx0. rewrite Py0 in Ly0. rewrite Px1 in Ux1. rewrite Py1 in Uy1.
  assert (Hmono : forall i N s, (i < N)%nat -> 0 <= s ->
            0 <= inject_Z (Z.of_nat i) * s /\
            inject_Z (Z.of_nat i) * s <= inject_Z (Z.of_nat (N - 1)) * s).
  { intros i N s Hi Hs. split.
    - apply Qmult_le_0_compat; [|exact Hs]. rewrite <- (Zle_Qle 0). lia.
    - apply Qmult_le_compat_r; [|exact Hs]. rewrite <- Zle_Qle. lia. }
  exists x0, x1, y0, y1. split; [exact Hext|].
  destruct (Hcoord _ Hx0) as (i0 & Hi0 & E0).
  destruct (Hcoord _ Hx1) as (i1 & Hi1 & E1).
  destruct (Hcoordy _ Hy0) as (j0 & Hj0 & F0).
  destruct (Hcoordy _ Hy1) as (j1 & Hj1 & F1).
  destruct (Hmono i0 NX sx Hi0 Hsx) as (A0 & _).
  destruct (Hmono i1 NX sx Hi1 Hsx) as (_ & A1).
  destruct (Hmono j0 NY sy Hj0 Hsy) as (B0 & _).
  destruct (Hmono j1 NY sy Hj1 Hsy) as (_ & B1).
  change (inject_Z (Z.of_nat 0)) with 0 in Lx0, Ly0.
  rewrite Qmult_0_l in Lx0, Ly0.
  repeat split.
  - apply Qle_antisym; [exact Lx0 | rewrite E0; exact A0].
  - apply Qle_antisym; [rewrite E1; exact A1 | exact Ux1].
  - apply Qle_antisym; [exact Ly0 | rewrite F0; exact B0].
  - apply Qle_antisym; [rewrite F1; exact B1 | exact Uy1].
Qed.

Lemma extent_of_diagonal_cell_witness :
  cell unit_cube = ((2, 0, 0), (0, 2, 0), (0, 0, 1)) /\
  0 <= 2 /\
  exists x0 x1 y0 y1,
    extent_of (sample_positions unit_cube (Some (2, 1)%nat))
    = Ok (x0, x1, y0, y1) /\
    x0 == 0 /\ x1 == 3 /\ y0 == 0 /\ y1 == 1.
Proof.
  assert (H1 : cell unit_cube = ((2, 0, 0), (0, 2, 0), (0, 0, 1))) by reflexivity.
  assert (H2 : 0 <= 2) by discriminate.
  split; [exact H1|]. split; [exact H2|].
  destruct (@extent_of_diagonal_cell unit_cube (Some (2, 1)%nat) 2 2 (0, 0, 1)
              H1 H2 H2 ltac:(simpl; lia) ltac:(simpl; lia))
    as (x0 & x1 & y0 & y1 & He & E0 & E1 & F0 & F1).
  exists x0, x1, y0, y1. split; [exact He|].
  split; [exact E0|]. split; [rewrite E1; reflexivity|].
  split; [exact F0 | rewrite F1; reflexivity].
Defined.

End StmPlotFacts.
